(** * Kale labextension: the KFServing dialogs and the [FormInput] wrapper

    A shallow embedding of

      - [labextension/src/components/FormInput.tsx]
        (the [FormInput] component, and the draft [KFServingDialog] that the
        file also carries),
      - [labextension/src/widgets/KFServingDialog.tsx],
      - [labextension/src/widgets/KFServingPipelineDialog.tsx],

    together with the small part of their run-time environment the
    components rely on: regular-expression literals, the [react-hook-form]
    calls they make ([register], [watch], [handleSubmit],
    [triggerValidation]) and React's [useEffect] / the browser's
    [setTimeout].

    JavaScript objects are finite maps from property names to values
    ([gmap string JsVal]); calls to the callbacks received as props are
    recorded, in order, in a list of [Call]s. *)

From Stdlib Require Import ZArith NArith Ascii String.
From stdpp Require Import gmap strings list fin_maps pretty.

#[local] Set Warnings "-register-all".

(** ** Regular expressions *)

Module RegExp.

(** The syntax the two literals of the dialogs need: character classes
    such as [[a-z0-9-]] (a list of inclusive ranges), sequencing, [*],
    [+] and [?]. *)
Inductive regex : Type :=
| Void
| Eps
| Class (ranges : list (ascii * ascii))
| Seq (r1 r2 : regex)
| Alt (r1 r2 : regex)
| Star (r : regex).

(** [r?] and [r+]. *)
Definition Opt (r : regex) : regex := Alt r Eps.
Definition Plus (r : regex) : regex := Seq r (Star r).

Definition in_range (c : ascii) (rg : ascii * ascii) : bool :=
  (N_of_ascii (fst rg) <=? N_of_ascii c)%N && (N_of_ascii c <=? N_of_ascii (snd rg))%N.

Definition in_class (ranges : list (ascii * ascii)) (c : ascii) : bool :=
  existsb (in_range c) ranges.

Fixpoint nullable (r : regex) : bool :=
  match r with
  | Void => false
  | Eps => true
  | Class _ => false
  | Seq r1 r2 => nullable r1 && nullable r2
  | Alt r1 r2 => nullable r1 || nullable r2
  | Star _ => true
  end.

(** The residual of [r] after reading the character [c]. *)
Fixpoint deriv (c : ascii) (r : regex) : regex :=
  match r with
  | Void => Void
  | Eps => Void
  | Class ranges => if in_class ranges c then Eps else Void
  | Seq r1 r2 =>
      if nullable r1
      then Alt (Seq (deriv c r1) r2) (deriv c r2)
      else Seq (deriv c r1) r2
  | Alt r1 r2 => Alt (deriv c r1) (deriv c r2)
  | Star r1 => Seq (deriv c r1) (Star r1)
  end.

Fixpoint deriv_string (s : string) (r : regex) : regex :=
  match s with
  | EmptyString => r
  | String c s' => deriv_string s' (deriv c r)
  end.

(** [/^r$/.test(s)]: both literals of the dialogs are written between [^]
    and [$] and carry no flag, so [test] asks whether [r] matches the
    whole of [s]. *)
Definition test (r : regex) (s : string) : bool :=
  nullable (deriv_string s r).

(** The words of a regular expression, as a relation. *)
Inductive matches : regex -> string -> Prop :=
| m_eps : matches Eps ""
| m_class ranges c :
    in_class ranges c = true -> matches (Class ranges) (String c "")
| m_seq r1 r2 s1 s2 :
    matches r1 s1 -> matches r2 s2 -> matches (Seq r1 r2) (s1 +:+ s2)
| m_alt_l r1 r2 s : matches r1 s -> matches (Alt r1 r2) s
| m_alt_r r1 r2 s : matches r2 s -> matches (Alt r1 r2) s
| m_star_nil r : matches (Star r) ""
| m_star_app r s1 s2 :
    matches r s1 -> matches (Star r) s2 -> matches (Star r) (s1 +:+ s2).

(** Every character of [s] satisfies [p]. *)
Fixpoint all_chars (p : ascii -> bool) (s : string) : bool :=
  match s with
  | EmptyString => true
  | String c s' => p c && all_chars p s'
  end.

Fixpoint last_char (s : string) : option ascii :=
  match s with
  | EmptyString => None
  | String c EmptyString => Some c
  | String _ s' => last_char s'
  end.

End RegExp.

Import RegExp.

(** ** JavaScript values and objects *)

(** The values that occur as props and as validation rules. An object is a
    finite map from property names to values; [VRegister rules] is the ref
    callback that [register(rules)] returns. *)
Inductive JsVal : Type :=
| VUndefined
| VBool (b : bool)
| VNum (z : Z)
| VStr (s : string)
| VRegExp (r : regex)
| VObj (o : gmap string JsVal)
| VRegister (rules : gmap string JsVal).

(** Object spread: [{...o, ...v}]. Spreading [undefined] (or any value that
    is not an object) adds nothing. *)
Definition spread (v : option JsVal) (o : gmap string JsVal) : gmap string JsVal :=
  match v with
  | Some (VObj m) => m ∪ o
  | _ => o
  end.

(** The entries of an object-valued prop; none when the prop is absent or
    is not an object. *)
Definition entriesOf (v : option JsVal) : gmap string JsVal :=
  match v with
  | Some (VObj o) => o
  | _ => ∅
  end.

(** [readOnly = false] in a destructuring pattern: the prop, or [false]
    when it is absent or [undefined]. *)
Definition orFalse (v : option JsVal) : JsVal :=
  match v with
  | None | Some VUndefined => VBool false
  | Some x => x
  end.

(** What a DOM text input shows for a [defaultValue]. *)
Definition toDomString (v : JsVal) : string :=
  match v with
  | VStr s => s
  | VNum z => pretty z
  | _ => ""
  end.

(** Calls the components make to the functions they receive as props or
    from the form library, in the order they are made. *)
Inductive Call : Type :=
| toggleDialog
| runInferenceService (data : gmap string string)
| setKFServingMetadata (data : gmap string string)
| triggerValidation
| consoleLog (v : option string).

(** [setTimeout(callback, delay)]: the calls the callback makes when it
    runs, and the delay in milliseconds. *)
Record Timer : Type := { callback : list Call; delay : Z }.

(** ** The form library: react-hook-form as the dialogs use it *)

Module ReactHookForm.

(** [errors[name]]: the rule that failed and its message. *)
Record FieldError : Type := { err_type : string; message : string }.

(** The state [useForm] keeps: the value of every input the user has
    edited (an input that was never edited shows its default value), and
    the current [errors] object. *)
Record FormState : Type := {
  values : gmap string string;
  errors : gmap string FieldError
}.

(** A registered field: its name, the value it starts with and the rules
    object it was registered with. *)
Record Registration : Type := {
  reg_name : string;
  reg_default : string;
  reg_rules : gmap string JsVal
}.

(** What the input called [name] holds: the last edit, or the value it
    started with. *)
Definition inputValue (form : FormState) (name dflt : string) : string :=
  default dflt (values form !! name).

Definition fieldValue (form : FormState) (f : Registration) : string :=
  inputValue form (reg_name f) (reg_default f).

(** [watch(name)]: the current value of the field, [undefined] ([None])
    while the user has not touched it. *)
Definition watch (form : FormState) (name : string) : option string :=
  values form !! name.

(** [required: 'message'] makes the field required when the message is
    not the empty string; [required: true] requires it without a
    message. *)
Definition requiredRule (rules : gmap string JsVal) : option string :=
  match rules !! "required" with
  | Some (VStr msg) => if String.eqb msg "" then None else Some msg
  | Some (VBool true) => Some ""
  | _ => None
  end.

(** [pattern: { value: /re/, message: '...' }], or [pattern: /re/]. *)
Definition patternRule (rules : gmap string JsVal) : option (regex * string) :=
  match rules !! "pattern" with
  | Some (VObj o) =>
      match o !! "value" with
      | Some (VRegExp r) =>
          Some (r, match o !! "message" with Some (VStr m) => m | _ => "" end)
      | _ => None
      end
  | Some (VRegExp r) => Some (r, "")
  | _ => None
  end.

(** Validation of one field: [required] is looked at first and ends the
    validation when it fails; [pattern] is only tried on a value that is
    not empty. *)
Definition validateField (rules : gmap string JsVal) (value : string)
  : option FieldError :=
  let isEmpty := String.eqb value "" in
  match requiredRule rules, isEmpty with
  | Some msg, true => Some {| err_type := "required"; message := msg |}
  | _, _ =>
      match patternRule rules with
      | Some (r, msg) =>
          if negb isEmpty && negb (test r value)
          then Some {| err_type := "pattern"; message := msg |}
          else None
      | None => None
      end
  end.

Definition validateFields (fields : list Registration) (form : FormState)
  : list (string * FieldError) :=
  omap (fun f => pair (reg_name f) <$> validateField (reg_rules f) (fieldValue form f))
       fields.

(** The record [handleSubmit] passes on: the value of every registered
    field. *)
Definition getValues (fields : list Registration) (form : FormState)
  : gmap string string :=
  list_to_map ((fun f => (reg_name f, fieldValue form f)) <$> fields).

(** [triggerValidation()]: validates every registered field and stores
    the outcome in [errors]. *)
Definition runValidation (fields : list Registration) (form : FormState)
  : FormState :=
  {| values := values form; errors := list_to_map (validateFields fields form) |}.

(** [handleSubmit(onSubmit)]: validates every registered field; calls
    [onSubmit] with the values when none fails, and only stores the
    errors otherwise. *)
Definition handleSubmit (fields : list Registration)
    (onSubmit : gmap string string -> list Call) (form : FormState)
  : FormState * list Call :=
  match validateFields fields form with
  | [] => (runValidation fields form, onSubmit (getValues fields form))
  | _ :: _ => (runValidation fields form, [])
  end.

(** [mode: 'onChange']: an edit stores the new value and validates the
    edited field. *)
Definition change (fields : list Registration) (name value : string)
    (form : FormState) : FormState :=
  let vs := <[name := value]> (values form) in
  {| values := vs;
     errors :=
       match list_find (fun f => reg_name f = name) fields with
       | Some (_, f) =>
           match validateField (reg_rules f) value with
           | Some e => <[name := e]> (errors form)
           | None => delete name (errors form)
           end
       | None => errors form
       end |}.

End ReactHookForm.

Import ReactHookForm.

(** ** Elements the components render *)

(** An entry of a select's [values] array. *)
Record SelectOption : Type := { opt_label : string; opt_value : string }.

(** [<FormSelect label=... values=... />]. *)
Record FormSelectProps : Type := {
  select_label : string;
  select_values : list SelectOption
}.

(** The children of a dialog: [<FormInput {...props} />], a [<Controller>]
    wrapping a select, and [<Button onClick=...>children</Button>]; a click
    handler takes the form state at the time of the click. *)
Inductive Element : Type :=
| FormInputEl (props : gmap string JsVal)
| ControllerEl (name defaultValue : string) (rules : gmap string JsVal)
    (as_ : FormSelectProps)
| ButtonEl (onClick : FormState -> FormState * list Call) (children : string).

(** [<Dialog open=...>]: title, [DialogContent] and [DialogActions]. *)
Record DialogEl : Type := {
  dlg_open : bool;
  dlg_title : string;
  dlg_content : list Element;
  dlg_actions : list Element
}.

(** One run of a dialog component: what it logs while rendering, the
    element it returns, and the effect it hands to [useEffect] (the timers
    the effect starts when React runs it) with the effect's dependencies. *)
Record Rendered : Type := {
  logged : list Call;
  element : DialogEl;
  effect : list Timer;
  effect_deps : list bool
}.

(** The props of the three dialogs; the callback props ([toggleDialog],
    [runInferenceService], [setKFServingMetadata]) are the [Call]s. *)
Record DialogProps : Type := { open : bool }.

(** The field an element registers with the form: a [FormInput] through
    [inputRef={register(rules)}], a [Controller] through its [rules]. *)
Definition registration (e : Element) : option Registration :=
  match e with
  | FormInputEl props =>
      match props !! "name", props !! "inputRef" with
      | Some (VStr n), Some (VRegister rules) =>
          Some {| reg_name := n;
                  reg_default := toDomString (default VUndefined (props !! "defaultValue"));
                  reg_rules := rules |}
      | _, _ => None
      end
  | ControllerEl n d rules _ =>
      Some {| reg_name := n; reg_default := d; reg_rules := rules |}
  | ButtonEl _ _ => None
  end.

Definition registered (content : list Element) : list Registration :=
  omap registration content.

(** The [<FormInput variant="outlined" name=... label=... defaultValue=...
    error={!!errors?.name} helperText={errors.name?.message}
    inputRef={register(rules)} />] that every text field of the dialogs
    is. *)
Definition outlinedInput (form : FormState) (name label : string)
    (defaultValue : JsVal) (rules : gmap string JsVal) : Element :=
  FormInputEl
    {[ "variant" := VStr "outlined";
       "name" := VStr name;
       "label" := VStr label;
       "defaultValue" := defaultValue;
       "error" := VBool (bool_decide (is_Some (errors form !! name)));
       "helperText" :=
         match errors form !! name with
         | Some e => VStr (message e)
         | None => VUndefined
         end;
       "inputRef" := VRegister rules ]}.

(** The effect all three dialogs pass to [useEffect]:
    [if (props.open) { setTimeout(() => { triggerValidation(); }, 500); }]. *)
Definition validateOnOpen (props : DialogProps) : list Timer :=
  if open props
  then [ {| callback := [triggerValidation]; delay := 500 |} ]
  else [].

(** The rules objects of the dialogs. *)
Definition requiredOnly : gmap string JsVal :=
  {[ "required" := VStr "Required field" ]}.

(** [/^[a-z]([a-z0-9-]*[a-z0-9])?$/] *)
Definition k8sNamePattern : regex :=
  Seq (Class [("a", "z")%char])
      (Opt (Seq (Star (Class [("a", "z"); ("0", "9"); ("-", "-")]%char))
                (Class [("a", "z"); ("0", "9")]%char))).

(** [/^[0-9]+$/] *)
Definition intPattern : regex := Plus (Class [("0", "9")%char]).

Definition nameRules : gmap string JsVal :=
  {[ "required" := VStr "Required field";
     "pattern" :=
       VObj {[ "value" := VRegExp k8sNamePattern;
               "message" := VStr "Must be a valid K8s resource name" ]} ]}.

Definition portRules : gmap string JsVal :=
  {[ "required" := VStr "Required field";
     "pattern" :=
       VObj {[ "value" := VRegExp intPattern;
               "message" := VStr "Must be an int" ]} ]}.

(** *** components/FormInput.tsx *)

Module FormInputTsx.

(** The class names [useStyles] returns. *)
Record Classes : Type := {
  label : string;
  input : string;
  textField : string;
  helperLabel : string
}.

(** [<TextField {...props} />] *)
Inductive TextFieldEl : Type := TextField (props : gmap string JsVal).

Definition FormInput (classes : Classes) (props : gmap string JsVal)
  : TextFieldEl :=
  let readOnly := orFalse (props !! "readOnly") in
  let InputProps := props !! "InputProps" in
  let rest :=
    delete "InputProps"
      (delete "readOnly" (delete "inputIndex" (delete "className" props))) in
  TextField
    (<["FormHelperTextProps" :=
         VObj {[ "classes" := VObj {[ "root" := VStr (helperLabel classes) ]} ]}]>
     (<["InputLabelProps" :=
          VObj {[ "classes" := VObj {[ "root" := VStr (label classes) ]} ]}]>
      (<["InputProps" :=
           VObj (spread InputProps
                   {[ "classes" := VObj {[ "root" := VStr (input classes) ]};
                      "readOnly" := readOnly ]})]>
       (<["spellCheck" := VBool false]>
        (<["margin" := VStr "dense"]>
         (<["className" := VStr (textField classes)]> rest)))))).

(** The draft dialog the file carries next to [FormInput]; its
    [runInferenceService] prop and the call to it are commented out. *)
Definition onSubmit (data : gmap string string) : list Call := [].

Definition handleClose (form : FormState) : FormState * list Call :=
  (form, [toggleDialog]).

Definition KFServingDialog (props : DialogProps) (form : FormState) : Rendered :=
  let content :=
    [ outlinedInput form "name" "InferenceService Name" (VStr "") nameRules;
      outlinedInput form "image" "Docker Image" (VStr "") requiredOnly;
      outlinedInput form "port" "Endpoint Port" (VNum 5000) portRules;
      outlinedInput form "endpoint" "Service Endpoint" (VStr "") requiredOnly;
      outlinedInput form "path" "Model Path" (VStr "") requiredOnly ] in
  {| logged := [];
     element :=
       {| dlg_open := open props;
          dlg_title := "KFServing";
          dlg_content := content;
          dlg_actions :=
            [ ButtonEl handleClose "Cancel";
              ButtonEl (handleSubmit (registered content) onSubmit) "Run" ] |};
     effect := validateOnOpen props;
     effect_deps := [open props] |}.

End FormInputTsx.

(** *** widgets/KFServingDialog.tsx *)

Module KFServingDialogTsx.

Definition PREDICTOR_VALUES : list SelectOption :=
  [ {| opt_label := "Tensorflow"; opt_value := "tensorflow" |};
    {| opt_label := "PyTorch"; opt_value := "pytorch" |};
    {| opt_label := "ONNX"; opt_value := "onnx" |};
    {| opt_label := "Triton"; opt_value := "triton" |};
    {| opt_label := "SKLearn"; opt_value := "sklearn" |};
    {| opt_label := "XGBoost"; opt_value := "xgboost" |};
    {| opt_label := "Custom"; opt_value := "custom" |} ].

Definition onSubmit (data : gmap string string) : list Call :=
  [toggleDialog; runInferenceService data].

Definition onCancel (form : FormState) : FormState * list Call :=
  (form, [toggleDialog]).

Definition KFServingDialog (props : DialogProps) (form : FormState) : Rendered :=
  let predictorValue := watch form "predictor" in
  let content :=
    ([ outlinedInput form "name" "InferenceService Name" (VStr "") nameRules;
       outlinedInput form "modelPath" "Model Path" (VStr "") requiredOnly;
       ControllerEl "predictor" "" requiredOnly
         {| select_label := "Predictor Type"; select_values := PREDICTOR_VALUES |} ]
     ++ (if bool_decide (predictorValue = Some "custom")
         then
           [ outlinedInput form "image" "Docker Image" (VStr "") requiredOnly;
             outlinedInput form "port" "Endpoint Port" (VNum 5000) portRules;
             outlinedInput form "endpoint" "Service Endpoint" (VStr "") requiredOnly ]
         else []))%list in
  {| logged := [consoleLog predictorValue];
     element :=
       {| dlg_open := open props;
          dlg_title := "Serve";
          dlg_content := content;
          dlg_actions :=
            [ ButtonEl onCancel "Cancel";
              ButtonEl (handleSubmit (registered content) onSubmit) "Run" ] |};
     effect := validateOnOpen props;
     effect_deps := [open props] |}.

End KFServingDialogTsx.

(** *** widgets/KFServingPipelineDialog.tsx *)

Module KFServingPipelineDialogTsx.

Definition onSubmit (data : gmap string string) : list Call :=
  [toggleDialog; setKFServingMetadata data].

Definition KFServingPipelineDialog (props : DialogProps) (form : FormState)
  : Rendered :=
  let content :=
    [ outlinedInput form "model" "Model Variable Name" (VStr "") requiredOnly;
      ControllerEl "predictor" "" requiredOnly
        {| select_label := "Predictor";
           select_values := KFServingDialogTsx.PREDICTOR_VALUES |} ] in
  {| logged := [];
     element :=
       {| dlg_open := open props;
          dlg_title := "KFServing";
          dlg_content := content;
          dlg_actions :=
            [ ButtonEl (handleSubmit (registered content) onSubmit) "Ok" ] |};
     effect := validateOnOpen props;
     effect_deps := [open props] |}.

End KFServingPipelineDialogTsx.

(** ** The dialogs at run time *)

(** The three dialog components of the repository. *)
Inductive Dialog : Type :=
| ServeDialog      (* widgets/KFServingDialog.tsx *)
| PipelineDialog   (* widgets/KFServingPipelineDialog.tsx *)
| DraftDialog.     (* the KFServingDialog of components/FormInput.tsx *)

Definition render (d : Dialog) : DialogProps -> FormState -> Rendered :=
  match d with
  | ServeDialog => KFServingDialogTsx.KFServingDialog
  | PipelineDialog => KFServingPipelineDialogTsx.KFServingPipelineDialog
  | DraftDialog => FormInputTsx.KFServingDialog
  end.

(** The fields the form of a dialog holds after a render. *)
Definition fields (d : Dialog) (props : DialogProps) (form : FormState)
  : list Registration :=
  registered (dlg_content (element (render d props form))).

(** The button with the given caption, if the dialog shows one. *)
Fixpoint button (caption : string) (actions : list Element)
  : option (FormState -> FormState * list Call) :=
  match actions with
  | [] => None
  | ButtonEl h c :: rest =>
      if String.eqb c caption then Some h else button caption rest
  | _ :: rest => button caption rest
  end.

(** A click on the button with the given caption: the new form state and
    the calls the handler makes; nothing happens when there is no such
    button. *)
Definition click (d : Dialog) (caption : string) (props : DialogProps)
    (form : FormState) : FormState * list Call :=
  match button caption (dlg_actions (element (render d props form))) with
  | Some h => h form
  | None => (form, [])
  end.

(** The caption of the button a dialog binds to [handleSubmit(onSubmit)]. *)
Definition submitCaption (d : Dialog) : string :=
  match d with
  | ServeDialog => "Run"
  | PipelineDialog => "Ok"
  | DraftDialog => "Run"
  end.

(** The form of a dialog nobody has edited yet. *)
Definition emptyForm : FormState := {| values := ∅; errors := ∅ |}.

Module React.

(** A mounted dialog: the props and form state of its last render, the
    dependencies of its effect at that render ([None] before the first
    render), the timers that are waiting with the time they are due, the
    clock in milliseconds, and the calls made so far by click handlers
    and timer callbacks. *)
Record Mounted : Type := {
  curProps : DialogProps;
  curForm : FormState;
  lastDeps : option (list bool);
  timers : list (Z * list Call);
  clock : Z;
  trace : list Call
}.

Definition mount : Mounted :=
  {| curProps := {| open := false |};
     curForm := emptyForm;
     lastDeps := None;
     timers := [];
     clock := 0;
     trace := [] |}.

(** [useEffect(effect, deps)]: the effect runs after the first render and
    after every render whose dependencies differ from those of the render
    before. *)
Definition effectRuns (prev : option (list bool)) (deps : list bool) : bool :=
  match prev with
  | None => true
  | Some p => negb (bool_decide (p = deps))
  end.

(** What the host does to a mounted dialog. *)
Inductive Event : Type :=
| Render (p : DialogProps)            (* the parent renders the dialog *)
| Edit (name value : string)          (* the user edits a field *)
| Click (caption : string)            (* the user clicks a button *)
| Advance (dt : Z).                   (* [dt] milliseconds pass *)

(** A call made by a timer callback; [triggerValidation] is the only one
    that changes the form state. *)
Definition exec (d : Dialog) (p : DialogProps) (form : FormState) (c : Call)
  : FormState :=
  match c with
  | triggerValidation => runValidation (fields d p form) form
  | _ => form
  end.

Definition step (d : Dialog) (ev : Event) (m : Mounted) : Mounted :=
  match ev with
  | Render p =>
      let r := render d p (curForm m) in
      let started :=
        if effectRuns (lastDeps m) (effect_deps r) then effect r else [] in
      {| curProps := p;
         curForm := curForm m;
         lastDeps := Some (effect_deps r);
         timers :=
           timers m ++ ((fun t => (clock m + delay t, callback t)%Z) <$> started);
         clock := clock m;
         trace := trace m |}
  | Edit name value =>
      {| curProps := curProps m;
         curForm := change (fields d (curProps m) (curForm m)) name value (curForm m);
         lastDeps := lastDeps m;
         timers := timers m;
         clock := clock m;
         trace := trace m |}
  | Click caption =>
      let '(form', calls) := click d caption (curProps m) (curForm m) in
      {| curProps := curProps m;
         curForm := form';
         lastDeps := lastDeps m;
         timers := timers m;
         clock := clock m;
         trace := trace m ++ calls |}
  | Advance dt =>
      let now := (clock m + dt)%Z in
      let due := filter (fun t => (t.1 <= now)%Z) (timers m) in
      let calls := concat (snd <$> due) in
      {| curProps := curProps m;
         curForm := foldl (exec d (curProps m)) (curForm m) calls;
         lastDeps := lastDeps m;
         timers := filter (fun t => ¬ (t.1 <= now)%Z) (timers m);
         clock := now;
         trace := trace m ++ calls |}
  end.

Definition run (d : Dialog) (evs : list Event) (m : Mounted) : Mounted :=
  foldl (fun m ev => step d ev m) m evs.

End React.

Import React.

(** ** The two patterns, read character by character *)

Definition isLower : ascii -> bool := in_class [("a", "z")%char].
Definition isDigit : ascii -> bool := in_class [("0", "9")%char].
Definition isLowerOrDigit : ascii -> bool :=
  in_class [("a", "z"); ("0", "9")]%char.
Definition isLowerDigitOrDash : ascii -> bool :=
  in_class [("a", "z"); ("0", "9"); ("-", "-")]%char.

(** A lower-case letter, then letters, digits and dashes, the last of which
    is not a dash. *)
Definition validK8sName (s : string) : bool :=
  match s with
  | EmptyString => false
  | String c rest =>
      isLower c && all_chars isLowerDigitOrDash rest
      && match last_char rest with
         | Some d => isLowerOrDigit d
         | None => true
         end
  end.

(** One digit or more, and nothing else. *)
Definition allDigits (s : string) : bool :=
  match s with
  | EmptyString => false
  | String _ _ => all_chars isDigit s
  end.

(** ** Names used in the statements below *)

(** The error a [required: 'Required field'] rule leaves in [errors]. *)
Definition requiredError : FieldError :=
  {| err_type := "required"; message := "Required field" |}.

(** The registrations the dialogs make. *)
Definition nameField : Registration :=
  {| reg_name := "name"; reg_default := ""; reg_rules := nameRules |}.
Definition requiredField (n : string) : Registration :=
  {| reg_name := n; reg_default := ""; reg_rules := requiredOnly |}.
Definition portField : Registration :=
  {| reg_name := "port"; reg_default := "5000"; reg_rules := portRules |}.

(** The content shows a text input with the given name and label whose
    [inputRef] registers it with a [required: 'Required field'] rule. *)
Definition rendersRequiredInput (content : list Element) (name label : string)
  : Prop :=
  exists (p rules : gmap string JsVal),
    FormInputEl p ∈ content
    /\ p !! "name" = Some (VStr name)
    /\ p !! "label" = Some (VStr label)
    /\ p !! "inputRef" = Some (VRegister rules)
    /\ rules !! "required" = Some (VStr "Required field").

(** ** Sessions of a dialog *)

(** The [onSubmit] of each dialog. *)
Definition onSubmitOf (d : Dialog) : gmap string string -> list Call :=
  match d with
  | ServeDialog => KFServingDialogTsx.onSubmit
  | PipelineDialog => KFServingPipelineDialogTsx.onSubmit
  | DraftDialog => FormInputTsx.onSubmit
  end.

(** The record has a non-empty value under [k]. *)
Definition filled (data : gmap string string) (k : string) : Prop :=
  exists v, data !! k = Some v /\ v <> "".

(** The record has a value under [k] that the pattern accepts. *)
Definition matching (data : gmap string string) (k : string) (r : regex) : Prop :=
  exists v, data !! k = Some v /\ test r v = true.

(** A record of KFServingDialog whose fields all pass their rules: the
    three fixed fields, and the three fields of a custom predictor exactly
    when the predictor is 'custom'. *)
Definition serveRecord (data : gmap string string) : Prop :=
  matching data "name" k8sNamePattern
  /\ filled data "modelPath"
  /\ filled data "predictor"
  /\ ((data !! "predictor" = Some "custom"
       /\ filled data "image"
       /\ matching data "port" intPattern
       /\ filled data "endpoint"
       /\ dom data
          = {[ "name"; "modelPath"; "predictor"; "image"; "port"; "endpoint" ]})
      \/ (data !! "predictor" <> Some "custom"
          /\ dom data = {[ "name"; "modelPath"; "predictor" ]})).

(** A record of KFServingPipelineDialog whose fields pass their rules. *)
Definition pipelineRecord (data : gmap string string) : Prop :=
  filled data "model" /\ filled data "predictor"
  /\ dom data = {[ "model"; "predictor" ]}.

(** A record of the draft dialog whose fields pass their rules. *)
Definition draftRecord (data : gmap string string) : Prop :=
  matching data "name" k8sNamePattern
  /\ filled data "image"
  /\ matching data "port" intPattern
  /\ filled data "endpoint"
  /\ filled data "path"
  /\ dom data = {[ "name"; "image"; "port"; "endpoint"; "path" ]}.

Definition accepted (d : Dialog) : gmap string string -> Prop :=
  match d with
  | ServeDialog => serveRecord
  | PipelineDialog => pipelineRecord
  | DraftDialog => draftRecord
  end.

(** The calls a dialog can have made: each click or expired timer adds the
    calls of [onCancel] / [handleClose], of the timer callback, or of
    [onSubmit] on a record that passed validation. *)
Inductive sessionTrace (d : Dialog) : list Call -> Prop :=
| session_start : sessionTrace d []
| session_cancel tr :
    sessionTrace d tr -> sessionTrace d (tr ++ [toggleDialog])
| session_validate tr :
    sessionTrace d tr -> sessionTrace d (tr ++ [triggerValidation])
| session_submit tr data :
    sessionTrace d tr -> accepted d data ->
    sessionTrace d (tr ++ onSubmitOf d data).

(** How many times [triggerValidation] was called. *)
Fixpoint validations (tr : list Call) : nat :=
  match tr with
  | [] => 0
  | triggerValidation :: tr' => S (validations tr')
  | _ :: tr' => validations tr'
  end.

(** How many renders of a list of events find [open] turned true, when the
    dependencies of the render before them are [prev]. *)
Fixpoint openings (prev : option (list bool)) (evs : list Event) : nat :=
  match evs with
  | [] => 0
  | Render p :: evs' =>
      (if open p && negb (bool_decide (prev = Some [true])) then 1 else 0)
      + openings (Some [open p]) evs'
  | _ :: evs' => openings prev evs'
  end.

(** * Properties *)

(** ** Regular expressions: the derivative test decides [matches] *)

#[local] Arguments String.append : simpl nomatch.

Section RegExpFacts.

Implicit Types (r : regex) (s w : string) (c : ascii).

Lemma append_empty_inv s1 s2 : s1 +:+ s2 = "" -> s1 = "" /\ s2 = "".
Proof. destruct s1; simpl; [auto | discriminate]. Qed.

Lemma append_empty_r s : s +:+ "" = s.
Proof. induction s as [|a s IH]; simpl; [reflexivity | now rewrite IH]. Qed.

Lemma nullable_matches_empty r : nullable r = true <-> matches r "".
Proof.
  split.
  - induction r as [| |rs|r1 IH1 r2 IH2|r1 IH1 r2 IH2|r1 IH1];
      simpl; intros H; try discriminate.
    + constructor.
    + apply andb_prop in H as [H1 H2].
      change "" with ("" +:+ ""). constructor; auto.
    + apply orb_prop in H as [H|H]; [apply m_alt_l | apply m_alt_r]; auto.
    + constructor.
  - intros H. remember "" as w eqn:Hw.
    induction H as [|rs c Hc|r1 r2 s1 s2 H1 IH1 H2 IH2|r1 r2 s H IH
                    |r1 r2 s H IH|r1|r1 s1 s2 H1 IH1 H2 IH2];
      simpl; try reflexivity; try discriminate.
    + apply append_empty_inv in Hw as [-> ->]. now rewrite IH1, IH2.
    + now rewrite IH.
    + rewrite IH by assumption. apply orb_true_r.
Qed.

Lemma deriv_sound c r s : matches (deriv c r) s -> matches r (String c s).
Proof.
  revert s.
  induction r as [| |rs|r1 IH1 r2 IH2|r1 IH1 r2 IH2|r1 IH1]; simpl; intros s H.
  - inversion H.
  - inversion H.
  - destruct (in_class rs c) eqn:E; inversion H; subst. now constructor.
  - assert (Hseq : forall s', matches (Seq (deriv c r1) r2) s' ->
                              matches (Seq r1 r2) (String c s')).
    { intros s' H'. inversion H' as [| |? ? s1 s2 Ha Hb| | | |]; subst.
      change (String c (s1 +:+ s2)) with (String c s1 +:+ s2).
      constructor; auto. }
    destruct (nullable r1) eqn:N; [|auto].
    inversion H as [| | |? ? ? Ha|? ? ? Hb| |]; subst; [auto|].
    change (String c s) with ("" +:+ String c s).
    constructor; [now apply nullable_matches_empty | auto].
  - inversion H; subst; [apply m_alt_l | apply m_alt_r]; auto.
  - inversion H as [| |? ? s1 s2 Ha Hb| | | |]; subst.
    change (String c (s1 +:+ s2)) with (String c s1 +:+ s2).
    apply m_star_app; auto.
Qed.

Lemma deriv_complete c r w :
  matches r w -> forall s, w = String c s -> matches (deriv c r) s.
Proof.
  induction 1 as [|rs a Ha|r1 r2 s1 s2 H1 IH1 H2 IH2|r1 r2 s0 H IH
                  |r1 r2 s0 H IH|r1|r1 s1 s2 H1 IH1 H2 IH2];
    intros s Hw; simpl.
  - discriminate.
  - injection Hw as -> <-. rewrite Ha. constructor.
  - destruct s1 as [|a s1'].
    + simpl in Hw. apply nullable_matches_empty in H1. rewrite H1.
      apply m_alt_r. auto.
    + simpl in Hw. injection Hw as -> <-.
      destruct (nullable r1); [apply m_alt_l|]; constructor; auto.
  - apply m_alt_l; auto.
  - apply m_alt_r; auto.
  - discriminate.
  - destruct s1 as [|a s1'].
    + simpl in Hw. apply (IH2 s Hw).
    + simpl in Hw. injection Hw as -> <-. constructor; auto.
Qed.

Lemma test_matches r s : test r s = true <-> matches r s.
Proof.
  unfold test. revert r.
  induction s as [|c s IH]; intros r; simpl.
  - apply nullable_matches_empty.
  - rewrite IH. split; [apply deriv_sound|].
    intros H. now apply (deriv_complete c r _ H).
Qed.

Lemma all_chars_app p s1 s2 :
  all_chars p (s1 +:+ s2) = all_chars p s1 && all_chars p s2.
Proof.
  induction s1 as [|a s1 IH]; simpl; [reflexivity|].
  now rewrite IH, andb_assoc.
Qed.

Lemma last_char_snoc s d : last_char (s +:+ String d "") = Some d.
Proof.
  induction s as [|a s IH]; simpl; [reflexivity|].
  rewrite IH. destruct (s +:+ String d "") eqn:E; [|reflexivity].
  destruct s; discriminate.
Qed.

Lemma last_char_Some s d :
  last_char s = Some d -> exists s', s = s' +:+ String d "".
Proof.
  induction s as [|a s IH]; simpl; [discriminate|].
  destruct s as [|b s].
  - intros [= ->]. now exists "".
  - intros H. destruct (IH H) as [s' ->]. now exists (String a s').
Qed.

Lemma last_char_None s : last_char s = None -> s = "".
Proof.
  induction s as [|a s IH]; simpl; [reflexivity|].
  destruct s as [|b s]; [discriminate|].
  intros H. specialize (IH H). discriminate.
Qed.

Lemma star_class_matches rs s :
  matches (Star (Class rs)) s <-> all_chars (in_class rs) s = true.
Proof.
  split.
  - intros H. remember (Star (Class rs)) as r eqn:Hr.
    induction H as [| | | | |r1|r1 s1 s2 H1 _ H2 IH2]; try discriminate.
    + reflexivity.
    + injection Hr as ->. inversion H1; subst. simpl.
      apply andb_true_intro. auto.
  - induction s as [|a s IH]; simpl; intros H.
    + constructor.
    + apply andb_prop in H as [Ha Hs].
      change (String a s) with (String a "" +:+ s).
      constructor; [now constructor | auto].
Qed.

Lemma class_matches rs s :
  matches (Class rs) s <-> exists c, s = String c "" /\ in_class rs c = true.
Proof.
  split.
  - inversion 1; subst. eauto.
  - intros (c & -> & H). now constructor.
Qed.

End RegExpFacts.

(** The two patterns on a few inputs. *)
Example k8sNamePattern_accepts :
  test k8sNamePattern "my-model" = true
  /\ test k8sNamePattern "a" = true
  /\ test k8sNamePattern "v2--9" = true.
Proof. repeat split; reflexivity. Qed.

Example k8sNamePattern_rejects :
  test k8sNamePattern "" = false
  /\ test k8sNamePattern "My-model" = false
  /\ test k8sNamePattern "9lives" = false
  /\ test k8sNamePattern "model-" = false
  /\ test k8sNamePattern "my_model" = false.
Proof. repeat split; reflexivity. Qed.

Example intPattern_examples :
  test intPattern "5000" = true
  /\ test intPattern "0" = true
  /\ test intPattern "" = false
  /\ test intPattern "80a" = false
  /\ test intPattern "-1" = false.
Proof. repeat split; reflexivity. Qed.

Lemma isLowerOrDigit_dash c : isLowerOrDigit c = true -> isLowerDigitOrDash c = true.
Proof.
  unfold isLowerOrDigit, isLowerDigitOrDash, in_class. simpl.
  rewrite !orb_false_r. intros H. apply orb_prop in H as [->| ->]; simpl;
    rewrite ?orb_true_r; reflexivity.
Qed.

(** X1: the pattern of the InferenceService name accepts exactly the strings
    that start with a lower-case letter, go on with lower-case letters,
    digits and dashes, and do not end in a dash. *)
Theorem k8sNamePattern_reading (s : string) :
  test k8sNamePattern s = validK8sName s.
Proof.
  apply eq_true_iff_eq. rewrite test_matches. unfold k8sNamePattern, Opt. split.
  - intros H.
    inversion H as [| |? ? s1 s2 Hc Hrest| | | |]; subst.
    apply class_matches in Hc as (c & -> & Hc).
    change (validK8sName (String c s2) = true). unfold validK8sName.
    change (isLower c = true) in Hc. rewrite Hc.
    inversion Hrest as [| | |? ? ? Hseq|? ? ? Heps| |]; subst.
    + inversion Hseq as [| |? ? s3 s4 Hstar Hlast| | | |]; subst.
      apply star_class_matches in Hstar.
      apply class_matches in Hlast as (d & -> & Hd).
      change (all_chars isLowerDigitOrDash s3 = true) in Hstar.
      change (isLowerOrDigit d = true) in Hd.
      rewrite last_char_snoc, all_chars_app, Hstar, Hd. simpl.
      now rewrite (isLowerOrDigit_dash d Hd).
    + inversion Heps. reflexivity.
  - destruct s as [|c rest]; simpl; [discriminate|].
    intros H. apply andb_prop in H as [H Hlast]. apply andb_prop in H as [Hc Hall].
    change (String c rest) with (String c "" +:+ rest).
    constructor; [now constructor|].
    destruct (last_char rest) as [d|] eqn:E.
    + apply last_char_Some in E as [mid ->].
      rewrite all_chars_app in Hall. apply andb_prop in Hall as [Hmid _].
      apply m_alt_l. constructor; [now apply star_class_matches | now constructor].
    + apply last_char_None in E as ->. apply m_alt_r. constructor.
Qed.

(** X2: the pattern of the port accepts exactly the non-empty strings of
    digits. *)
Theorem intPattern_reading (s : string) : test intPattern s = allDigits s.
Proof.
  apply eq_true_iff_eq. rewrite test_matches. unfold intPattern, Plus. split.
  - intros H. inversion H as [| |? ? s1 s2 Hc Hrest| | | |]; subst.
    apply class_matches in Hc as (c & -> & Hc).
    apply star_class_matches in Hrest.
    change (allDigits (String c s2) = true). unfold allDigits. simpl.
    change (isDigit c = true) in Hc. change (all_chars isDigit s2 = true) in Hrest.
    now rewrite Hc, Hrest.
  - destruct s as [|c rest]; simpl; [discriminate|].
    intros H. apply andb_prop in H as [Hc Hall].
    change (String c rest) with (String c "" +:+ rest).
    constructor; [now constructor | now apply star_class_matches].
Qed.

(** ** The form library *)

Section FormFacts.

Implicit Types (form : FormState) (f : Registration) (v : string).

Lemma validateField_requiredOnly v :
  validateField requiredOnly v =
  if String.eqb v "" then Some requiredError else None.
Proof.
  unfold validateField.
  change (requiredRule requiredOnly) with (Some "Required field").
  change (patternRule requiredOnly) with (@None (regex * string)).
  destruct (String.eqb v ""); reflexivity.
Qed.

Lemma validateField_nameRules v :
  validateField nameRules v =
  if String.eqb v "" then Some requiredError
  else if test k8sNamePattern v then None
       else Some {| err_type := "pattern";
                    message := "Must be a valid K8s resource name" |}.
Proof.
  unfold validateField.
  change (requiredRule nameRules) with (Some "Required field").
  change (patternRule nameRules)
    with (Some (k8sNamePattern, "Must be a valid K8s resource name")).
  destruct (String.eqb v ""); [reflexivity|].
  destruct (test k8sNamePattern v); reflexivity.
Qed.

Lemma validateField_portRules v :
  validateField portRules v =
  if String.eqb v "" then Some requiredError
  else if test intPattern v then None
       else Some {| err_type := "pattern"; message := "Must be an int" |}.
Proof.
  unfold validateField.
  change (requiredRule portRules) with (Some "Required field").
  change (patternRule portRules) with (Some (intPattern, "Must be an int")).
  destruct (String.eqb v ""); [reflexivity|].
  destruct (test intPattern v); reflexivity.
Qed.

Lemma validateFields_cons f fs form :
  validateFields (f :: fs) form =
  match validateField (reg_rules f) (fieldValue form f) with
  | Some e => (reg_name f, e) :: validateFields fs form
  | None => validateFields fs form
  end.
Proof.
  unfold validateFields. simpl.
  destruct (validateField (reg_rules f) (fieldValue form f)); reflexivity.
Qed.

Lemma validateFields_nil fs form :
  validateFields fs form = [] <->
  Forall (fun f => validateField (reg_rules f) (fieldValue form f) = None) fs.
Proof.
  induction fs as [|f fs IH].
  - split; [constructor | reflexivity].
  - rewrite validateFields_cons, Forall_cons.
    destruct (validateField (reg_rules f) (fieldValue form f)) as [e|].
    + split; [discriminate | intros [[=] _]].
    + rewrite IH. tauto.
Qed.

Lemma validateFields_keys fs form n :
  n ∈ (validateFields fs form).*1 -> n ∈ reg_name <$> fs.
Proof.
  induction fs as [|f fs IH]; [intros H; exact H|].
  rewrite validateFields_cons, fmap_cons.
  destruct (validateField (reg_rules f) (fieldValue form f)) as [e|].
  - rewrite fmap_cons. simpl. rewrite !elem_of_cons. intros [->|H]; auto.
  - rewrite elem_of_cons. auto.
Qed.

(** After a validation, [errors[name]] is what the rules of that field
    say about that field's own value. *)
Lemma errors_runValidation fs form f :
  NoDup (reg_name <$> fs) -> f ∈ fs ->
  errors (runValidation fs form) !! reg_name f
  = validateField (reg_rules f) (fieldValue form f).
Proof.
  unfold runValidation. simpl.
  induction fs as [|f0 fs IH]; intros Hnd Hin.
  - inversion Hin.
  - rewrite fmap_cons in Hnd. apply NoDup_cons in Hnd as [Hfresh Hnd].
    rewrite validateFields_cons.
    apply elem_of_cons in Hin as [->|Hin].
    + destruct (validateField (reg_rules f0) (fieldValue form f0)) as [e|].
      * simpl. apply lookup_insert_eq.
      * apply not_elem_of_list_to_map_1. intros H.
        apply Hfresh. eapply validateFields_keys, H.
    + assert (reg_name f0 <> reg_name f) as Hne.
      { intros E. apply Hfresh. rewrite E. now apply list_elem_of_fmap_2. }
      destruct (validateField (reg_rules f0) (fieldValue form f0)) as [e|];
        [simpl; rewrite lookup_insert_ne by exact Hne|]; auto.
Qed.

Lemma handleSubmit_calls fs onSubmit form :
  (handleSubmit fs onSubmit form).2 =
  match validateFields fs form with
  | [] => onSubmit (getValues fs form)
  | _ :: _ => []
  end.
Proof. unfold handleSubmit. destruct (validateFields fs form); reflexivity. Qed.

Lemma handleSubmit_form fs onSubmit form :
  (handleSubmit fs onSubmit form).1 = runValidation fs form.
Proof. unfold handleSubmit. destruct (validateFields fs form); reflexivity. Qed.

Lemma eqb_empty_false v : String.eqb v "" = false <-> v <> "".
Proof. apply String.eqb_neq. Qed.

End FormFacts.

(** ** The fields of the three dialogs *)

Section DialogFacts.

Implicit Types (props : DialogProps) (form : FormState).

Lemma fields_Serve props form :
  fields ServeDialog props form =
  ([nameField; requiredField "modelPath"; requiredField "predictor"]
   ++ if bool_decide (watch form "predictor" = Some "custom")
      then [requiredField "image"; portField; requiredField "endpoint"]
      else [])%list.
Proof.
  unfold fields, render, KFServingDialogTsx.KFServingDialog.
  simpl element. simpl dlg_content.
  destruct (bool_decide _); reflexivity.
Qed.

Lemma fields_Pipeline props form :
  fields PipelineDialog props form =
  [requiredField "model"; requiredField "predictor"].
Proof. reflexivity. Qed.

Lemma fields_Draft props form :
  fields DraftDialog props form =
  [nameField; requiredField "image"; portField; requiredField "endpoint";
   requiredField "path"].
Proof. reflexivity. Qed.

Lemma fields_NoDup d props form : NoDup (reg_name <$> fields d props form).
Proof.
  destruct d.
  - rewrite fields_Serve. destruct (bool_decide _);
      apply (bool_decide_unpack _); vm_compute; exact I.
  - rewrite fields_Pipeline. apply (bool_decide_unpack _); vm_compute; exact I.
  - rewrite fields_Draft. apply (bool_decide_unpack _); vm_compute; exact I.
Qed.

Lemma click_submit d props form :
  click d (submitCaption d) props form =
  handleSubmit (fields d props form)
    match d with
    | ServeDialog => KFServingDialogTsx.onSubmit
    | PipelineDialog => KFServingPipelineDialogTsx.onSubmit
    | DraftDialog => FormInputTsx.onSubmit
    end form.
Proof. destruct d; reflexivity. Qed.

End DialogFacts.

Lemma getValues_lookup (fs : list Registration) (form : FormState)
    (f : Registration) :
  NoDup (reg_name <$> fs) -> f ∈ fs ->
  getValues fs form !! reg_name f = Some (fieldValue form f).
Proof.
  intros Hnd Hin. unfold getValues.
  apply elem_of_list_to_map_1.
  - rewrite <- list_fmap_compose. exact Hnd.
  - apply (list_elem_of_fmap_2 (fun f => (reg_name f, fieldValue form f))), Hin.
Qed.

Lemma getValues_dom (fs : list Registration) (form : FormState) :
  dom (getValues fs form) = list_to_set (reg_name <$> fs).
Proof.
  unfold getValues. rewrite dom_list_to_map_L, <- list_fmap_compose. reflexivity.
Qed.

(** C1 (as amended): a submission that passes validation hands
    [onSubmit] a flat record of strings, holding the value of every
    registered field under the field's name: name, modelPath and predictor
    (and image, port and endpoint when the predictor is 'custom') in
    KFServingDialog; model and predictor in KFServingPipelineDialog; name,
    image, port, endpoint and path in the draft dialog of FormInput.tsx.
    KFServingDialog then calls [toggleDialog] and [runInferenceService] with
    the record, KFServingPipelineDialog calls [toggleDialog] and
    [setKFServingMetadata] with the record, and the draft dialog, whose call
    to [runInferenceService] is commented out, calls nothing. *)
Theorem C1_submission_record (d : Dialog) (props : DialogProps)
    (form : FormState) :
  validateFields (fields d props form) form = [] ->
  let data := getValues (fields d props form) form in
  (click d (submitCaption d) props form).2
  = match d with
    | ServeDialog => [toggleDialog; runInferenceService data]
    | PipelineDialog => [toggleDialog; setKFServingMetadata data]
    | DraftDialog => []
    end
  /\ dom data
     = match d with
       | ServeDialog =>
           if bool_decide (watch form "predictor" = Some "custom")
           then {[ "name"; "modelPath"; "predictor"; "image"; "port"; "endpoint" ]}
           else {[ "name"; "modelPath"; "predictor" ]}
       | PipelineDialog => {[ "model"; "predictor" ]}
       | DraftDialog => {[ "name"; "image"; "port"; "endpoint"; "path" ]}
       end
  /\ (forall f, f ∈ fields d props form ->
        data !! reg_name f = Some (fieldValue form f)).
Proof.
  intros Hvalid data. split; [|split].
  - rewrite click_submit, handleSubmit_calls, Hvalid. destruct d; reflexivity.
  - unfold data. rewrite getValues_dom. destruct d.
    + rewrite fields_Serve. destruct (bool_decide _); simpl; set_solver.
    + rewrite fields_Pipeline. simpl. set_solver.
    + rewrite fields_Draft. simpl. set_solver.
  - intros f Hin. apply getValues_lookup; [apply fields_NoDup | exact Hin].
Qed.

(** C1, on a KFServingDialog filled in for an sklearn model. *)
Lemma C1_submission_record_witness :
  let form :=
    {| values := {[ "name" := "my-model"; "modelPath" := "gs://bucket/model";
                    "predictor" := "sklearn" ]};
       errors := ∅ |} in
  validateFields (fields ServeDialog {| open := true |} form) form = []
  /\ (click ServeDialog "Run" {| open := true |} form).2
     = [ toggleDialog;
         runInferenceService
           {[ "name" := "my-model"; "modelPath" := "gs://bucket/model";
              "predictor" := "sklearn" ]} ].
Proof.
  intros form. split; [reflexivity|].
  exact (proj1 (C1_submission_record ServeDialog {| open := true |} form eq_refl)).
Defined.

(** C1 does not hold as stated: the draft KFServingDialog of FormInput.tsx,
    filled in so that every field passes validation, makes no call at all
    when Run is clicked, so its record reaches no callback; and the record
    KFServingPipelineDialog delivers is keyed by 'model' (the name of the
    model variable) and 'predictor'. *)
Lemma C1_draft_delivers_nothing :
  let form :=
    {| values := {[ "name" := "my-model"; "image" := "registry/serve:1";
                    "endpoint" := "predict"; "path" := "/models/my-model" ]};
       errors := ∅ |} in
  validateFields (fields DraftDialog {| open := true |} form) form = []
  /\ (click DraftDialog "Run" {| open := true |} form).2 = []
  /\ (click PipelineDialog "Ok" {| open := true |}
        {| values := {[ "model" := "clf"; "predictor" := "sklearn" ]};
           errors := ∅ |}).2
     = [ toggleDialog;
         setKFServingMetadata {[ "model" := "clf"; "predictor" := "sklearn" ]} ].
Proof. repeat split; reflexivity. Qed.

(** ** Conditional fields of KFServingDialog *)

Lemma outlinedInput_props (form : FormState) (n l : string) (d : JsVal)
    (rules p : gmap string JsVal) :
  FormInputEl p = outlinedInput form n l d rules ->
  p !! "name" = Some (VStr n) /\ p !! "label" = Some (VStr l)
  /\ p !! "defaultValue" = Some d /\ p !! "inputRef" = Some (VRegister rules).
Proof. intros [= ->]. repeat split; reflexivity. Qed.

Lemma serve_content (props : DialogProps) (form : FormState) :
  dlg_content (element (KFServingDialogTsx.KFServingDialog props form)) =
  ([ outlinedInput form "name" "InferenceService Name" (VStr "") nameRules;
     outlinedInput form "modelPath" "Model Path" (VStr "") requiredOnly;
     ControllerEl "predictor" "" requiredOnly
       {| select_label := "Predictor Type";
          select_values := KFServingDialogTsx.PREDICTOR_VALUES |} ]
   ++ if bool_decide (watch form "predictor" = Some "custom")
      then [ outlinedInput form "image" "Docker Image" (VStr "") requiredOnly;
             outlinedInput form "port" "Endpoint Port" (VNum 5000) portRules;
             outlinedInput form "endpoint" "Service Endpoint" (VStr "") requiredOnly ]
      else [])%list.
Proof. reflexivity. Qed.

Lemma serve_renders_iff_custom (props : DialogProps) (form : FormState)
    (n l : string) :
  (n, l) ∈ [("image", "Docker Image"); ("port", "Endpoint Port");
            ("endpoint", "Service Endpoint")] ->
  rendersRequiredInput
    (dlg_content (element (KFServingDialogTsx.KFServingDialog props form))) n l
  <-> watch form "predictor" = Some "custom".
Proof.
  intros Hnl. rewrite serve_content. unfold rendersRequiredInput.
  destruct (bool_decide_reflect (watch form "predictor" = Some "custom")) as [Hc|Hc].
  - split; [auto|]. intros _.
    rewrite !elem_of_cons in Hnl.
    destruct Hnl as [[= -> ->]|[[= -> ->]|[[= -> ->]|Hnl]]]; [| | |inversion Hnl].
    + eexists _, requiredOnly.
      split; [apply elem_of_app; right; apply list_elem_of_here|].
      repeat split; reflexivity.
    + eexists _, portRules.
      split; [apply elem_of_app; right;
              apply list_elem_of_further, list_elem_of_here|].
      repeat split; reflexivity.
    + eexists _, requiredOnly.
      split; [apply elem_of_app; right;
              apply list_elem_of_further, list_elem_of_further,
                list_elem_of_here|].
      repeat split; reflexivity.
  - split; [|intros; contradiction].
    intros (p & rules & Hin & Hname & _). exfalso.
    rewrite app_nil_r, !elem_of_cons in Hin.
    destruct Hin as [Hin|[Hin|[Hin|Hin]]]; [| | |inversion Hin].
    + apply outlinedInput_props in Hin as (Hn & _). rewrite Hn in Hname.
      injection Hname as <-. rewrite !elem_of_cons in Hnl.
      destruct Hnl as [[=]|[[=]|[[=]|Hnl]]]; inversion Hnl.
    + apply outlinedInput_props in Hin as (Hn & _). rewrite Hn in Hname.
      injection Hname as <-. rewrite !elem_of_cons in Hnl.
      destruct Hnl as [[=]|[[=]|[[=]|Hnl]]]; inversion Hnl.
    + discriminate.
Qed.

Lemma serve_calls_plain (props : DialogProps) (form : FormState) :
  watch form "predictor" <> Some "custom" ->
  (click ServeDialog "Run" props form).2 =
  if test k8sNamePattern (inputValue form "name" "")
     && negb (String.eqb (inputValue form "modelPath" "") "")
     && negb (String.eqb (inputValue form "predictor" "") "")
  then [ toggleDialog;
         runInferenceService
           {[ "name" := inputValue form "name" "";
              "modelPath" := inputValue form "modelPath" "";
              "predictor" := inputValue form "predictor" "" ]} ]
  else [].
Proof.
  intros Hc. change "Run" with (submitCaption ServeDialog).
  rewrite click_submit, handleSubmit_calls, fields_Serve.
  rewrite bool_decide_eq_false_2 by exact Hc. rewrite app_nil_r.
  rewrite !validateFields_cons, !validateField_requiredOnly, validateField_nameRules.
  unfold fieldValue. simpl reg_name. simpl reg_default.
  destruct (String.eqb (inputValue form "name" "") "") eqn:En.
  - apply String.eqb_eq in En. rewrite En.
    destruct (String.eqb (inputValue form "modelPath" "") "");
      destruct (String.eqb (inputValue form "predictor" "") ""); reflexivity.
  - destruct (test k8sNamePattern (inputValue form "name" ""));
      destruct (String.eqb (inputValue form "modelPath" "") "");
      destruct (String.eqb (inputValue form "predictor" "") ""); reflexivity.
Qed.

(** C2: in the predictor-based KFServingDialog the Docker Image, Endpoint
    Port and Service Endpoint inputs are rendered, with their 'Required
    field' rule registered, exactly when [watch('predictor')] is 'custom'.
    With any other predictor the form holds the fields name, modelPath and
    predictor only: whatever image, port and endpoint are, the submission
    goes through as soon as those three pass, and the record it delivers
    holds those three. *)
Theorem C2_custom_inputs (props : DialogProps) (form : FormState) :
  let content :=
    dlg_content (element (KFServingDialogTsx.KFServingDialog props form)) in
  let custom := watch form "predictor" = Some "custom" in
  (rendersRequiredInput content "image" "Docker Image" <-> custom)
  /\ (rendersRequiredInput content "port" "Endpoint Port" <-> custom)
  /\ (rendersRequiredInput content "endpoint" "Service Endpoint" <-> custom)
  /\ (~ custom ->
      reg_name <$> registered content = ["name"; "modelPath"; "predictor"]
      /\ (click ServeDialog "Run" props form).2 =
         if test k8sNamePattern (inputValue form "name" "")
            && negb (String.eqb (inputValue form "modelPath" "") "")
            && negb (String.eqb (inputValue form "predictor" "") "")
         then [ toggleDialog;
                runInferenceService
                  {[ "name" := inputValue form "name" "";
                     "modelPath" := inputValue form "modelPath" "";
                     "predictor" := inputValue form "predictor" "" ]} ]
         else []).
Proof.
  intros content custom.
  split; [|split; [|split]].
  - apply serve_renders_iff_custom. apply list_elem_of_here.
  - apply serve_renders_iff_custom.
    apply list_elem_of_further, list_elem_of_here.
  - apply serve_renders_iff_custom.
    apply list_elem_of_further, list_elem_of_further, list_elem_of_here.
  - intros Hc. split; [|now apply serve_calls_plain].
    change (registered content) with (fields ServeDialog props form).
    rewrite fields_Serve, bool_decide_eq_false_2 by exact Hc. reflexivity.
Qed.

(** C2, on a form whose predictor is 'sklearn' and whose image, port and
    endpoint were never filled in. *)
Lemma C2_custom_inputs_witness :
  let form :=
    {| values := {[ "name" := "my-model"; "modelPath" := "gs://bucket/model";
                    "predictor" := "sklearn"; "port" := "" ]};
       errors := ∅ |} in
  watch form "predictor" <> Some "custom"
  /\ (click ServeDialog "Run" {| open := true |} form).2
     = [ toggleDialog;
         runInferenceService
           {[ "name" := "my-model"; "modelPath" := "gs://bucket/model";
              "predictor" := "sklearn" ]} ].
Proof.
  intros form.
  assert (Hc : watch form "predictor" <> Some "custom") by discriminate.
  split; [exact Hc|].
  exact (proj2 (proj2 (proj2 (proj2
    (C2_custom_inputs {| open := true |} form))) Hc)).
Defined.

(** ** Validation rules and messages *)

Lemma fields_cases (d : Dialog) (props : DialogProps) (form : FormState)
    (f : Registration) :
  f ∈ fields d props form ->
  f = nameField \/ f = portField
  \/ exists n, f = requiredField n /\ n <> "name" /\ n <> "port".
Proof.
  assert (Hreq : forall n, n <> "name" -> n <> "port" ->
            requiredField n = nameField \/ requiredField n = portField
            \/ exists n', requiredField n = requiredField n'
                          /\ n' <> "name" /\ n' <> "port") by eauto 6.
  intros Hin. destruct d.
  - rewrite fields_Serve in Hin. apply elem_of_app in Hin as [Hin|Hin].
    + rewrite !elem_of_cons in Hin.
      destruct Hin as [->|[->|[->|Hin]]]; [auto|now apply Hreq..|inversion Hin].
    + destruct (bool_decide _); [|inversion Hin].
      rewrite !elem_of_cons in Hin.
      destruct Hin as [->|[->|[->|Hin]]]; [now apply Hreq|auto|now apply Hreq|inversion Hin].
  - rewrite fields_Pipeline, !elem_of_cons in Hin.
    destruct Hin as [->|[->|Hin]]; [now apply Hreq..|inversion Hin].
  - rewrite fields_Draft, !elem_of_cons in Hin.
    destruct Hin as [->|[->|[->|[->|[->|Hin]]]]];
      [auto|now apply Hreq|auto|now apply Hreq..|inversion Hin].
Qed.

(** C3 (as amended): validation leaves at most one message per field in
    [errors], and nothing else can go wrong. Every field of every dialog is
    registered as required and gets 'Required field' when it is empty. The
    name field gets 'Must be a valid K8s resource name' exactly when its
    value is not empty and does not match /^[a-z]([a-z0-9-]*[a-z0-9])?$/;
    the port field gets 'Must be an int' exactly when its value is not
    empty and does not match /^[0-9]+$/. These three messages are the only
    ones. *)
Theorem C3_field_messages (d : Dialog) (props : DialogProps) (form : FormState)
    (f : Registration) :
  f ∈ fields d props form ->
  let v := fieldValue form f in
  let outcome := validateField (reg_rules f) v in
  (v = "" -> outcome = Some requiredError)
  /\ (reg_name f = "name" ->
      (message <$> outcome = Some "Must be a valid K8s resource name"
       <-> v <> "" /\ test k8sNamePattern v = false))
  /\ (reg_name f = "port" ->
      (message <$> outcome = Some "Must be an int"
       <-> v <> "" /\ test intPattern v = false))
  /\ (forall e, outcome = Some e ->
        message e ∈ ["Required field"; "Must be a valid K8s resource name";
                     "Must be an int"])
  /\ errors (runValidation (fields d props form) form) !! reg_name f = outcome.
Proof.
  intros Hin v outcome.
  assert (Herr := errors_runValidation _ form f (fields_NoDup d props form) Hin).
  fold v outcome in Herr.
  split; [|split; [|split; [|split; [|exact Herr]]]]; clear Herr;
    destruct (fields_cases d props form f Hin) as [->|[->|(n & -> & Hn & Hp)]];
    unfold outcome; simpl reg_rules; simpl reg_name;
    rewrite ?validateField_nameRules, ?validateField_portRules,
      ?validateField_requiredOnly;
    try discriminate; try contradiction.
  - intros ->. reflexivity.
  - intros ->. reflexivity.
  - intros ->. reflexivity.
  - intros _. destruct (String.eqb v "") eqn:E.
    + split; [discriminate|]. intros [Hne _]. apply eqb_empty_false in Hne. congruence.
    + apply eqb_empty_false in E.
      destruct (test k8sNamePattern v); split;
        [discriminate | intros [_ [=]] | auto | reflexivity].
  - intros _. destruct (String.eqb v "") eqn:E.
    + split; [discriminate|]. intros [Hne _]. apply eqb_empty_false in Hne. congruence.
    + apply eqb_empty_false in E.
      destruct (test intPattern v); split;
        [discriminate | intros [_ [=]] | auto | reflexivity].
  - intros e He. destruct (String.eqb v "");
      [|destruct (test k8sNamePattern v); [discriminate|]];
      injection He as <-; simpl; set_solver.
  - intros e He. destruct (String.eqb v "");
      [|destruct (test intPattern v); [discriminate|]];
      injection He as <-; simpl; set_solver.
  - intros e He. destruct (String.eqb v ""); [|discriminate].
    injection He as <-. simpl. set_solver.
Qed.

(** C3, on the name field of KFServingDialog holding 'My_Model'. *)
Lemma C3_field_messages_witness :
  let form := {| values := {[ "name" := "My_Model" ]}; errors := ∅ |} in
  nameField ∈ fields ServeDialog {| open := true |} form
  /\ message <$> validateField nameRules "My_Model"
     = Some "Must be a valid K8s resource name".
Proof.
  intros form.
  assert (Hin : nameField ∈ fields ServeDialog {| open := true |} form)
    by apply list_elem_of_here.
  split; [exact Hin|].
  apply (proj1 (proj2 (C3_field_messages ServeDialog {| open := true |} form
                         nameField Hin)) eq_refl).
  split; [discriminate | reflexivity].
Defined.

(** C3 does not hold as stated: the empty name does not match
    /^[a-z]([a-z0-9-]*[a-z0-9])?$/, and the empty port does not match
    /^[0-9]+$/, yet the message of either field is 'Required field', not the
    message of its pattern. *)
Lemma C3_empty_value_gets_required :
  let form := {| values := {[ "port" := "" ]}; errors := ∅ |} in
  let shown := errors (runValidation (fields DraftDialog {| open := true |} form) form) in
  fieldValue form nameField = ""
  /\ test k8sNamePattern "" = false
  /\ message <$> shown !! "name" = Some "Required field"
  /\ fieldValue form portField = ""
  /\ test intPattern "" = false
  /\ message <$> shown !! "port" = Some "Required field".
Proof. repeat split; reflexivity. Qed.

(** C4: every rules object a dialog passes to [register] or to a
    [Controller] has a 'required' entry holding the message 'Required
    field', may have a 'pattern' entry holding a regular expression and a
    message, and has no other entry. Validation looks at one field at a
    time: the error a validation of the whole form leaves for a field is
    fixed by the value of that field alone, whatever the other fields
    hold. *)
Theorem C4_rules_shape (d : Dialog) (props : DialogProps) (form : FormState)
    (f : Registration) :
  f ∈ fields d props form ->
  dom (reg_rules f) ⊆ ({[ "required"; "pattern" ]} : gset string)
  /\ reg_rules f !! "required" = Some (VStr "Required field")
  /\ (forall v, reg_rules f !! "pattern" = Some v ->
        exists r msg, v = VObj {[ "value" := VRegExp r; "message" := VStr msg ]})
  /\ (forall props' form',
        f ∈ fields d props' form' ->
        fieldValue form' f = fieldValue form f ->
        errors (runValidation (fields d props' form') form') !! reg_name f
        = errors (runValidation (fields d props form) form) !! reg_name f).
Proof.
  intros Hin.
  assert (Hshape :
    dom (reg_rules f) ⊆ ({[ "required"; "pattern" ]} : gset string)
    /\ reg_rules f !! "required" = Some (VStr "Required field")
    /\ (forall v, reg_rules f !! "pattern" = Some v ->
          exists r msg, v = VObj {[ "value" := VRegExp r; "message" := VStr msg ]})).
  { destruct (fields_cases d props form f Hin) as [->|[->|(n & -> & _)]];
      simpl reg_rules.
    - split; [unfold nameRules; set_solver|]. split; [reflexivity|].
      intros v [= <-]. eauto.
    - split; [unfold portRules; set_solver|]. split; [reflexivity|].
      intros v [= <-]. eauto.
    - split; [unfold requiredOnly; set_solver|]. split; [reflexivity|].
      intros v [=]. }
  destruct Hshape as (H1 & H2 & H3). repeat split; try assumption.
  intros props' form' Hin' Hsame.
  rewrite (errors_runValidation _ form' f (fields_NoDup d props' form') Hin').
  rewrite (errors_runValidation _ form f (fields_NoDup d props form) Hin).
  now rewrite Hsame.
Qed.

(** C4, on the port field of the draft dialog. *)
Lemma C4_rules_shape_witness :
  portField ∈ fields DraftDialog {| open := true |} emptyForm
  /\ dom portRules ⊆ ({[ "required"; "pattern" ]} : gset string).
Proof.
  assert (Hin : portField ∈ fields DraftDialog {| open := true |} emptyForm)
    by apply list_elem_of_further, list_elem_of_further, list_elem_of_here.
  split; [exact Hin|].
  exact (proj1 (C4_rules_shape DraftDialog {| open := true |} emptyForm
                  portField Hin)).
Defined.

(** ** Validation when a dialog opens *)

Lemma render_effect (d : Dialog) (p : DialogProps) (fm : FormState) :
  effect (render d p fm) = validateOnOpen p
  /\ effect_deps (render d p fm) = [open p].
Proof. destruct d; split; reflexivity. Qed.

Lemma step_Render (d : Dialog) (p : DialogProps) (m : Mounted) :
  step d (Render p) m =
  {| curProps := p;
     curForm := curForm m;
     lastDeps := Some [open p];
     timers :=
       timers m ++
       (if open p && negb (bool_decide (lastDeps m = Some [true]))
        then [((clock m + 500)%Z, [triggerValidation])]
        else []);
     clock := clock m;
     trace := trace m |}.
Proof.
  unfold step. destruct (render_effect d p (curForm m)) as [-> ->].
  f_equal. f_equal. unfold validateOnOpen, effectRuns.
  destruct (open p); [|now destruct (lastDeps m) as [l|]; [destruct (negb _)|]].
  destruct (lastDeps m) as [l|]; [|reflexivity]. simpl.
  destruct (bool_decide_reflect (l = [true])) as [->|Hl].
  - rewrite bool_decide_eq_true_2; reflexivity.
  - rewrite bool_decide_eq_false_2; [reflexivity | congruence].
Qed.

Lemma step_keeps_timers (d : Dialog) (ev : Event) (m : Mounted)
    (t : Z * list Call) :
  (forall p, ev <> Render p) -> t ∈ timers (step d ev m) -> t ∈ timers m.
Proof.
  intros Hev. destruct ev as [p|n v|c|dt]; simpl.
  - now destruct (Hev p).
  - auto.
  - destruct (click d c (curProps m) (curForm m)). auto.
  - intros H. now apply list_elem_of_filter in H as [_ H].
Qed.

Lemma step_Advance_one (d : Dialog) (m : Mounted) (due dt : Z) :
  timers m = [(due, [triggerValidation])] ->
  step d (Advance dt) m =
  if decide (due <= clock m + dt)%Z
  then {| curProps := curProps m;
          curForm := runValidation (fields d (curProps m) (curForm m)) (curForm m);
          lastDeps := lastDeps m;
          timers := [];
          clock := (clock m + dt)%Z;
          trace := trace m ++ [triggerValidation] |}
  else {| curProps := curProps m;
          curForm := curForm m;
          lastDeps := lastDeps m;
          timers := [(due, [triggerValidation])];
          clock := (clock m + dt)%Z;
          trace := trace m |}.
Proof.
  intros Ht. unfold step. rewrite Ht.
  destruct (decide (due <= clock m + dt)%Z) as [Hd|Hd].
  - rewrite filter_cons_True, filter_nil by exact Hd.
    rewrite filter_cons_False, filter_nil by (simpl; tauto).
    reflexivity.
  - rewrite filter_cons_False, filter_nil by exact Hd.
    rewrite filter_cons_True, filter_nil by exact Hd.
    simpl. now rewrite app_nil_r.
Qed.

(** C5: in each of the three dialogs, a render whose [open] prop has turned
    true (the first render included) starts exactly one timer, of 500 ms,
    whose callback makes one call to [triggerValidation]; a render with
    [open] false, or with [open] still true, starts none, and no render
    validates anything by itself. Edits, clicks and the passing of time start
    no timer, so this timer is all the asynchrony there is. Once started on
    its own, the timer leaves the trace and the errors alone for the first
    500 ms and then fires once: [triggerValidation] is called, every
    registered field is validated and the timer is gone. On a dialog nobody
    has edited, what is validated are the default values. *)
Theorem C5_validation_timer (d : Dialog) (m : Mounted) :
  (forall p,
     let m' := step d (Render p) m in
     timers m' =
       timers m ++
       (if open p && negb (bool_decide (lastDeps m = Some [true]))
        then [((clock m + 500)%Z, [triggerValidation])]
        else [])
     /\ trace m' = trace m /\ curForm m' = curForm m)
  /\ (forall ev t,
        (forall p, ev <> Render p) ->
        t ∈ timers (step d ev m) -> t ∈ timers m)
  /\ (forall dt,
        timers m = [] -> lastDeps m <> Some [true] -> (0 <= dt)%Z ->
        let m1 := step d (Render {| open := true |}) m in
        let m2 := step d (Advance dt) m1 in
        if decide (dt < 500)%Z
        then trace m2 = trace m /\ curForm m2 = curForm m
             /\ timers m2 = [((clock m + 500)%Z, [triggerValidation])]
        else trace m2 = trace m ++ [triggerValidation]
             /\ curForm m2
                = runValidation (fields d {| open := true |} (curForm m)) (curForm m)
             /\ timers m2 = [])
  /\ (let m2 := run d [Render {| open := true |}; Advance 500] mount in
      trace m2 = [triggerValidation]
      /\ forall f, f ∈ fields d {| open := true |} emptyForm ->
           errors (curForm m2) !! reg_name f
           = validateField (reg_rules f) (reg_default f)).
Proof.
  split; [|split; [|split]].
  - intros p m'. unfold m'. rewrite step_Render. auto.
  - intros ev t. apply step_keeps_timers.
  - intros dt Ht Hdeps Hdt m1 m2.
    assert (Hm1 : timers m1 = [((clock m + 500)%Z, [triggerValidation])]).
    { unfold m1. rewrite step_Render. simpl. rewrite Ht.
      rewrite bool_decide_eq_false_2 by exact Hdeps. reflexivity. }
    unfold m2. rewrite (step_Advance_one d m1 _ dt Hm1).
    assert (Hc : clock m1 = clock m) by (unfold m1; now rewrite step_Render).
    assert (Hf : curForm m1 = curForm m) by (unfold m1; now rewrite step_Render).
    assert (Htr : trace m1 = trace m) by (unfold m1; now rewrite step_Render).
    assert (Hp : curProps m1 = {| open := true |}) by (unfold m1; now rewrite step_Render).
    rewrite Hc, Hf, Htr, Hp.
    destruct (decide (dt < 500)%Z) as [Hlt|Hge];
      destruct (decide (clock m + 500 <= clock m + dt)%Z) as [Hd|Hd];
      try lia; simpl; auto.
  - intros m2. unfold m2.
    change (run d [Render {| open := true |}; Advance 500] mount)
      with (step d (Advance 500) (step d (Render {| open := true |}) mount)).
    rewrite step_Render.
    rewrite (step_Advance_one d _ 500 500) by reflexivity.
    destruct (decide _) as [_|Hd]; [|exfalso; apply Hd; simpl; lia].
    simpl. split; [reflexivity|].
    intros f Hin.
    apply (errors_runValidation _ emptyForm f
             (fields_NoDup d {| open := true |} emptyForm) Hin).
Qed.

(** C5, on KFServingPipelineDialog: opened at time 0 and left alone, it is
    validated once, 500 ms later, and not before. *)
Lemma C5_validation_timer_witness :
  trace (run PipelineDialog [Render {| open := true |}; Advance 499] mount) = []
  /\ trace (run PipelineDialog [Render {| open := true |}; Advance 500] mount)
     = [triggerValidation].
Proof.
  pose proof (C5_validation_timer PipelineDialog mount) as (_ & _ & H & _).
  split.
  - refine (proj1 (H 499%Z eq_refl _ _)); [discriminate | discriminate].
  - refine (proj1 (H 500%Z eq_refl _ _)); [discriminate | discriminate].
Defined.

(** ** FormInput *)

Lemma spread_lookup (v : option JsVal) (o : gmap string JsVal) (k : string) :
  spread v o !! k =
  match entriesOf v !! k with
  | Some x => Some x
  | None => o !! k
  end.
Proof.
  unfold spread, entriesOf.
  destruct v as [[| | | | |m|]|]; rewrite ?lookup_empty; try reflexivity.
  rewrite lookup_union. destruct (m !! k), (o !! k); reflexivity.
Qed.

(** C7 (as amended): [FormInput] keeps no state: what it renders is a
    function of its props (and of the class names of its style sheet), and
    it is one [TextField]. The [TextField] receives every prop unchanged
    except these: [className] is the full-width [textField] class, [margin]
    is 'dense', [spellCheck] is false, [inputIndex] and [readOnly] are
    dropped, [InputLabelProps] and [FormHelperTextProps] are replaced by the
    component's own label and helper-text classes, and [InputProps] is the
    caller's [InputProps] on top of the component's input class and of
    [readOnly] (false when the prop is absent): [readOnly] reaches
    [InputProps] unless the caller's [InputProps] has a [readOnly] of its
    own. *)
Theorem C7_FormInput_props (classes : FormInputTsx.Classes)
    (props : gmap string JsVal) :
  exists out ip : gmap string JsVal,
    FormInputTsx.FormInput classes props = FormInputTsx.TextField out
    /\ (forall k,
          k ∉ ["className"; "margin"; "spellCheck"; "inputIndex"; "readOnly";
               "InputProps"; "InputLabelProps"; "FormHelperTextProps"] ->
          out !! k = props !! k)
    /\ out !! "className" = Some (VStr (FormInputTsx.textField classes))
    /\ out !! "margin" = Some (VStr "dense")
    /\ out !! "spellCheck" = Some (VBool false)
    /\ out !! "inputIndex" = None
    /\ out !! "readOnly" = None
    /\ out !! "InputLabelProps"
       = Some (VObj {[ "classes" :=
                         VObj {[ "root" := VStr (FormInputTsx.label classes) ]} ]})
    /\ out !! "FormHelperTextProps"
       = Some (VObj {[ "classes" :=
                         VObj {[ "root" := VStr (FormInputTsx.helperLabel classes) ]} ]})
    /\ out !! "InputProps" = Some (VObj ip)
    /\ ip !! "readOnly"
       = Some (default (orFalse (props !! "readOnly"))
                 (entriesOf (props !! "InputProps") !! "readOnly"))
    /\ ip !! "classes"
       = Some (default (VObj {[ "root" := VStr (FormInputTsx.input classes) ]})
                 (entriesOf (props !! "InputProps") !! "classes"))
    /\ (forall k, k <> "readOnly" -> k <> "classes" ->
          ip !! k = entriesOf (props !! "InputProps") !! k).
Proof.
  eexists _, _. split; [reflexivity|].
  split.
  { intros k Hk. rewrite !not_elem_of_cons in Hk.
    destruct Hk as (? & ? & ? & ? & ? & ? & ? & ? & _).
    rewrite !lookup_insert_ne, !lookup_delete_ne by congruence. reflexivity. }
  split; [now simplify_map_eq|]. split; [now simplify_map_eq|].
  split; [now simplify_map_eq|]. split; [now simplify_map_eq|].
  split; [now simplify_map_eq|]. split; [now simplify_map_eq|].
  split; [now simplify_map_eq|]. split; [now simplify_map_eq|].
  split; [|split].
  - rewrite spread_lookup.
    destruct (entriesOf (props !! "InputProps") !! "readOnly"); reflexivity.
  - rewrite spread_lookup.
    destruct (entriesOf (props !! "InputProps") !! "classes"); reflexivity.
  - intros k Hr Hc. rewrite spread_lookup.
    destruct (entriesOf (props !! "InputProps") !! k); [reflexivity|].
    rewrite lookup_insert_ne, lookup_singleton_ne by congruence. reflexivity.
Qed.

(** C7 does not hold as stated: [InputLabelProps] (and, likewise,
    [FormHelperTextProps]) does not reach the [TextField] unchanged, and a
    [readOnly] prop is not what [InputProps] carries when the caller's
    [InputProps] has a [readOnly] of its own. *)
Lemma C7_props_not_all_forwarded :
  let classes :=
    {| FormInputTsx.label := "label-1"; FormInputTsx.input := "input-2";
       FormInputTsx.textField := "textField-3";
       FormInputTsx.helperLabel := "helperLabel-4" |} in
  let props : gmap string JsVal :=
    {[ "InputLabelProps" := VObj {[ "shrink" := VBool true ]};
       "readOnly" := VBool true;
       "InputProps" := VObj {[ "readOnly" := VBool false ]} ]} in
  exists out ip : gmap string JsVal,
    FormInputTsx.FormInput classes props = FormInputTsx.TextField out
    /\ out !! "InputLabelProps" <> props !! "InputLabelProps"
    /\ out !! "InputLabelProps"
       = Some (VObj {[ "classes" := VObj {[ "root" := VStr "label-1" ]} ]})
    /\ props !! "readOnly" = Some (VBool true)
    /\ out !! "InputProps" = Some (VObj ip)
    /\ ip !! "readOnly" = Some (VBool false).
Proof.
  intros classes props. eexists _, _.
  split; [reflexivity|]. split; [|repeat split; reflexivity].
  intros H.
  assert (Hshrink :
    forall o1 o2 : gmap string JsVal,
      Some (VObj o1) = Some (VObj o2) -> o1 !! "shrink" = o2 !! "shrink")
    by (intros o1 o2 [= ->]; reflexivity).
  apply Hshrink in H. discriminate H.
Qed.

(** ** Cancelling and submitting *)

(** C8: in the predictor-based KFServingDialog the Cancel button runs
    [onCancel], which calls [toggleDialog] exactly once and nothing else, so
    never [runInferenceService], whatever the form holds (valid or not);
    the entered data is not delivered and the form state is not touched. *)
Theorem C8_cancel_discards (props : DialogProps) (form : FormState) :
  button "Cancel"
    (dlg_actions (element (KFServingDialogTsx.KFServingDialog props form)))
  = Some KFServingDialogTsx.onCancel
  /\ click ServeDialog "Cancel" props form = (form, [toggleDialog])
  /\ (forall data,
        runInferenceService data ∉ (click ServeDialog "Cancel" props form).2).
Proof.
  split; [reflexivity|]. split; [reflexivity|].
  intros data H. change (runInferenceService data ∈ [toggleDialog]) in H.
  apply list_elem_of_singleton in H. discriminate.
Qed.

Lemma pipeline_calls (props : DialogProps) (form : FormState) :
  (click PipelineDialog "Ok" props form).2 =
  if negb (String.eqb (inputValue form "model" "") "")
     && negb (String.eqb (inputValue form "predictor" "") "")
  then [ toggleDialog;
         setKFServingMetadata
           {[ "model" := inputValue form "model" "";
              "predictor" := inputValue form "predictor" "" ]} ]
  else [].
Proof.
  change "Ok" with (submitCaption PipelineDialog).
  rewrite click_submit, handleSubmit_calls, fields_Pipeline.
  rewrite !validateFields_cons, !validateField_requiredOnly.
  unfold fieldValue. simpl reg_name. simpl reg_default.
  destruct (String.eqb (inputValue form "model" "") "");
    destruct (String.eqb (inputValue form "predictor" "") ""); reflexivity.
Qed.

(** C9: KFServingPipelineDialog shows one button, 'Ok', bound to
    [handleSubmit(onSubmit)], and no Cancel button. [setKFServingMetadata]
    is called only when both the 'model' and the 'predictor' field are not
    empty, and a submission that succeeds calls [toggleDialog] first and
    [setKFServingMetadata] with the record second. *)
Theorem C9_pipeline_ok_only (props : DialogProps) (form : FormState) :
  let r := KFServingPipelineDialogTsx.KFServingPipelineDialog props form in
  let model := inputValue form "model" "" in
  let predictor := inputValue form "predictor" "" in
  let calls := (click PipelineDialog "Ok" props form).2 in
  dlg_actions (element r)
  = [ ButtonEl (handleSubmit (registered (dlg_content (element r)))
                  KFServingPipelineDialogTsx.onSubmit) "Ok" ]
  /\ button "Cancel" (dlg_actions (element r)) = None
  /\ (forall data,
        setKFServingMetadata data ∈ calls -> model <> "" /\ predictor <> "")
  /\ calls =
     if negb (String.eqb model "") && negb (String.eqb predictor "")
     then [ toggleDialog;
            setKFServingMetadata
              {[ "model" := model; "predictor" := predictor ]} ]
     else [].
Proof.
  intros r model predictor calls.
  split; [reflexivity|]. split; [reflexivity|].
  assert (Hcalls := pipeline_calls props form).
  fold model predictor calls in Hcalls.
  split; [|exact Hcalls].
  intros data Hin. rewrite Hcalls in Hin.
  destruct (String.eqb model "") eqn:Em; [inversion Hin|].
  destruct (String.eqb predictor "") eqn:Ep; [inversion Hin|].
  split; now apply eqb_empty_false.
Qed.

(** C9, on a form that holds a model variable and a predictor. *)
Lemma C9_pipeline_ok_only_witness :
  (click PipelineDialog "Ok" {| open := true |}
     {| values := {[ "model" := "clf"; "predictor" := "sklearn" ]};
        errors := ∅ |}).2
  = [ toggleDialog;
      setKFServingMetadata {[ "model" := "clf"; "predictor" := "sklearn" ]} ].
Proof.
  exact (proj2 (proj2 (proj2
    (C9_pipeline_ok_only {| open := true |}
       {| values := {[ "model" := "clf"; "predictor" := "sklearn" ]};
          errors := ∅ |})))).
Defined.

(** ** The predictor select *)

Lemma required_blocks_submit (d : Dialog) (props : DialogProps)
    (form : FormState) (f : Registration) :
  f ∈ fields d props form ->
  validateField (reg_rules f) (fieldValue form f) <> None ->
  (click d (submitCaption d) props form).2 = [].
Proof.
  intros Hin Hbad. rewrite click_submit, handleSubmit_calls.
  destruct (validateFields (fields d props form) form) eqn:E; [|reflexivity].
  apply validateFields_nil in E. rewrite Forall_forall in E.
  exfalso. apply Hbad, E, Hin.
Qed.

Lemma predictor_registered (d : Dialog) (props : DialogProps) (form : FormState) :
  d <> DraftDialog -> requiredField "predictor" ∈ fields d props form.
Proof.
  intros Hd. destruct d; [| |contradiction].
  - rewrite fields_Serve. apply elem_of_app. left.
    apply list_elem_of_further, list_elem_of_further, list_elem_of_here.
  - rewrite fields_Pipeline. apply list_elem_of_further, list_elem_of_here.
Qed.

(** C10: [PREDICTOR_VALUES] has exactly 7 entries, whose values
    'tensorflow', 'pytorch', 'onnx', 'triton', 'sklearn', 'xgboost' and
    'custom' are pairwise distinct, and the predictor select of
    KFServingDialog and that of KFServingPipelineDialog both show it. The
    select starts at the empty string, which is not one of the values and
    fails the 'Required field' rule: while the predictor is empty, as in a
    dialog that was just opened, a click on the submit button calls nothing
    and leaves 'Required field' as the error of 'predictor'. *)
Theorem C10_predictor_values :
  length KFServingDialogTsx.PREDICTOR_VALUES = 7
  /\ opt_value <$> KFServingDialogTsx.PREDICTOR_VALUES
     = ["tensorflow"; "pytorch"; "onnx"; "triton"; "sklearn"; "xgboost"; "custom"]
  /\ NoDup (opt_value <$> KFServingDialogTsx.PREDICTOR_VALUES)
  /\ (forall props form,
        ControllerEl "predictor" "" requiredOnly
          {| select_label := "Predictor Type";
             select_values := KFServingDialogTsx.PREDICTOR_VALUES |}
        ∈ dlg_content (element (KFServingDialogTsx.KFServingDialog props form)))
  /\ (forall props form,
        ControllerEl "predictor" "" requiredOnly
          {| select_label := "Predictor";
             select_values := KFServingDialogTsx.PREDICTOR_VALUES |}
        ∈ dlg_content
            (element (KFServingPipelineDialogTsx.KFServingPipelineDialog props form)))
  /\ ("" ∉ (opt_value <$> KFServingDialogTsx.PREDICTOR_VALUES))
  /\ validateField requiredOnly "" = Some requiredError
  /\ (forall d props form,
        d <> DraftDialog ->
        inputValue form "predictor" "" = "" ->
        (click d (submitCaption d) props form).2 = []
        /\ errors (click d (submitCaption d) props form).1 !! "predictor"
           = Some requiredError).
Proof.
  split; [reflexivity|]. split; [reflexivity|].
  split; [apply (bool_decide_unpack _); vm_compute; exact I|].
  split.
  { intros props form. rewrite serve_content. apply elem_of_app. left.
    apply list_elem_of_further, list_elem_of_further, list_elem_of_here. }
  split.
  { intros props form. apply list_elem_of_further, list_elem_of_here. }
  split; [apply (bool_decide_unpack _); vm_compute; exact I|].
  split; [reflexivity|].
  intros d props form Hd Hempty.
  assert (Hin := predictor_registered d props form Hd).
  assert (Hv : validateField (reg_rules (requiredField "predictor"))
                 (fieldValue form (requiredField "predictor")) = Some requiredError).
  { unfold fieldValue. simpl. rewrite Hempty. reflexivity. }
  split.
  - apply (required_blocks_submit d props form _ Hin). rewrite Hv. discriminate.
  - rewrite click_submit, handleSubmit_form.
    change "predictor" with (reg_name (requiredField "predictor")).
    rewrite (errors_runValidation _ _ _ (fields_NoDup d props form) Hin).
    exact Hv.
Qed.

(** C10, on the two dialogs as they are when nobody has edited them. *)
Lemma C10_predictor_values_witness :
  (click ServeDialog "Run" {| open := true |} emptyForm).2 = []
  /\ (click PipelineDialog "Ok" {| open := true |} emptyForm).2 = [].
Proof.
  pose proof C10_predictor_values as (_ & _ & _ & _ & _ & _ & _ & H).
  split.
  - refine (proj1 (H ServeDialog {| open := true |} emptyForm _ eq_refl)).
    discriminate.
  - refine (proj1 (H PipelineDialog {| open := true |} emptyForm _ eq_refl)).
    discriminate.
Defined.

(** ** Further properties of the dialogs *)

(** X3: in KFServingDialog with the 'custom' predictor, Run delivers the
    record exactly when the name matches its pattern, the model path, the
    image and the endpoint are not empty and the port matches its pattern;
    the record then holds all six fields. *)
Theorem custom_submission (props : DialogProps) (form : FormState) :
  watch form "predictor" = Some "custom" ->
  (click ServeDialog "Run" props form).2 =
  if test k8sNamePattern (inputValue form "name" "")
     && negb (String.eqb (inputValue form "modelPath" "") "")
     && negb (String.eqb (inputValue form "image" "") "")
     && test intPattern (inputValue form "port" "5000")
     && negb (String.eqb (inputValue form "endpoint" "") "")
  then [ toggleDialog;
         runInferenceService
           {[ "name" := inputValue form "name" "";
              "modelPath" := inputValue form "modelPath" "";
              "predictor" := "custom";
              "image" := inputValue form "image" "";
              "port" := inputValue form "port" "5000";
              "endpoint" := inputValue form "endpoint" "" ]} ]
  else [].
Proof.
  intros Hc. change "Run" with (submitCaption ServeDialog).
  rewrite click_submit, handleSubmit_calls, fields_Serve.
  rewrite bool_decide_eq_true_2 by exact Hc.
  simpl app.
  rewrite !validateFields_cons, !validateField_requiredOnly,
    validateField_nameRules, validateField_portRules.
  unfold fieldValue. simpl reg_name. simpl reg_default.
  assert (Hp : inputValue form "predictor" "" = "custom")
    by (unfold inputValue; unfold watch in Hc; now rewrite Hc).
  rewrite Hp. simpl (String.eqb "custom" "").
  destruct (String.eqb (inputValue form "name" "") "") eqn:En;
    [apply String.eqb_eq in En; rewrite En|];
    (destruct (String.eqb (inputValue form "port" "5000") "") eqn:Ep;
       [apply String.eqb_eq in Ep; rewrite Ep|]);
    try destruct (test k8sNamePattern (inputValue form "name" ""));
    try destruct (test intPattern (inputValue form "port" "5000"));
    destruct (String.eqb (inputValue form "modelPath" "") "");
    destruct (String.eqb (inputValue form "image" "") "");
    destruct (String.eqb (inputValue form "endpoint" "") "");
    try reflexivity.
  all: unfold getValues; simpl; unfold fieldValue; simpl; rewrite Hp; reflexivity.
Qed.

(** X3, on a custom predictor served from an image on the default port. *)
Lemma custom_submission_witness :
  let form :=
    {| values := {[ "name" := "my-model"; "modelPath" := "gs://bucket/model";
                    "predictor" := "custom"; "image" := "registry/serve:1";
                    "endpoint" := "predict" ]};
       errors := ∅ |} in
  watch form "predictor" = Some "custom"
  /\ (click ServeDialog "Run" {| open := true |} form).2
     = [ toggleDialog;
         runInferenceService
           {[ "name" := "my-model"; "modelPath" := "gs://bucket/model";
              "predictor" := "custom"; "image" := "registry/serve:1";
              "port" := "5000"; "endpoint" := "predict" ]} ].
Proof.
  intros form. split; [reflexivity|].
  exact (custom_submission {| open := true |} form eq_refl).
Defined.


(** ** Records that reach a callback *)

Lemma validateField_requiredOnly_None (v : string) :
  validateField requiredOnly v = None -> v <> "".
Proof.
  rewrite validateField_requiredOnly.
  destruct (String.eqb v "") eqn:E; [discriminate|].
  intros _. now apply eqb_empty_false.
Qed.

Lemma validateField_nameRules_None (v : string) :
  validateField nameRules v = None -> test k8sNamePattern v = true.
Proof.
  rewrite validateField_nameRules.
  destruct (String.eqb v ""); [discriminate|].
  destruct (test k8sNamePattern v); [reflexivity | discriminate].
Qed.

Lemma validateField_portRules_None (v : string) :
  validateField portRules v = None -> test intPattern v = true.
Proof.
  rewrite validateField_portRules.
  destruct (String.eqb v ""); [discriminate|].
  destruct (test intPattern v); [reflexivity | discriminate].
Qed.

Section PassedFields.

Variables (d : Dialog) (props : DialogProps) (form : FormState).
Hypothesis Hvalid : validateFields (fields d props form) form = [].

Lemma passed_field (f : Registration) :
  f ∈ fields d props form ->
  getValues (fields d props form) form !! reg_name f = Some (fieldValue form f)
  /\ validateField (reg_rules f) (fieldValue form f) = None.
Proof.
  intros Hin. split.
  - apply getValues_lookup; [apply fields_NoDup | exact Hin].
  - apply validateFields_nil in Hvalid. rewrite Forall_forall in Hvalid. auto.
Qed.

Lemma passed_required (n : string) :
  requiredField n ∈ fields d props form ->
  filled (getValues (fields d props form) form) n.
Proof.
  intros Hin. destruct (passed_field _ Hin) as [Hget Hok].
  eexists. split; [exact Hget|]. now apply validateField_requiredOnly_None.
Qed.

Lemma passed_name :
  nameField ∈ fields d props form ->
  matching (getValues (fields d props form) form) "name" k8sNamePattern.
Proof.
  intros Hin. destruct (passed_field _ Hin) as [Hget Hok].
  eexists. split; [exact Hget|]. now apply validateField_nameRules_None.
Qed.

Lemma passed_port :
  portField ∈ fields d props form ->
  matching (getValues (fields d props form) form) "port" intPattern.
Proof.
  intros Hin. destruct (passed_field _ Hin) as [Hget Hok].
  eexists. split; [exact Hget|]. now apply validateField_portRules_None.
Qed.

End PassedFields.

Ltac pick_field :=
  repeat first [apply list_elem_of_here | apply list_elem_of_further].

Lemma accepted_record (d : Dialog) (props : DialogProps) (form : FormState) :
  validateFields (fields d props form) form = [] ->
  accepted d (getValues (fields d props form) form).
Proof.
  intros Hvalid.
  pose proof (passed_required d props form Hvalid) as Hreq.
  pose proof (passed_name d props form Hvalid) as Hname.
  pose proof (passed_port d props form Hvalid) as Hport.
  pose proof (passed_field d props form Hvalid (requiredField "predictor")) as Hpred.
  pose proof (getValues_dom (fields d props form) form) as Hdom.
  set (data := getValues (fields d props form) form) in *.
  destruct d; simpl accepted.
  - pose proof (fields_Serve props form) as Hf.
    unfold serveRecord.
    split; [apply Hname; rewrite Hf; apply elem_of_app; left; pick_field|].
    split; [apply Hreq; rewrite Hf; apply elem_of_app; left; pick_field|].
    split; [apply Hreq; rewrite Hf; apply elem_of_app; left; pick_field|].
    destruct Hpred as [Hpred _];
      [rewrite Hf; apply elem_of_app; left; pick_field|].
    unfold fieldValue, inputValue in Hpred. simpl in Hpred.
    destruct (bool_decide_reflect (watch form "predictor" = Some "custom"))
      as [Hc|Hc].
    + left. unfold watch in Hc. rewrite Hc in Hpred.
      split; [exact Hpred|].
      split; [apply Hreq; rewrite Hf; apply elem_of_app; right; pick_field|].
      split; [apply Hport; rewrite Hf; apply elem_of_app; right; pick_field|].
      split; [apply Hreq; rewrite Hf; apply elem_of_app; right; pick_field|].
      rewrite Hdom, Hf. simpl. set_solver.
    + right. split.
      * rewrite Hpred. unfold watch in Hc.
        destruct (values form !! "predictor") as [v|]; simpl; congruence.
      * rewrite Hdom, Hf. simpl. set_solver.
  - unfold pipelineRecord.
    split; [apply Hreq; pick_field|]. split; [apply Hreq; pick_field|].
    rewrite Hdom. simpl. set_solver.
  - unfold draftRecord.
    split; [apply Hname; pick_field|]. split; [apply Hreq; pick_field|].
    split; [apply Hport; pick_field|]. split; [apply Hreq; pick_field|].
    split; [apply Hreq; pick_field|].
    rewrite Hdom. simpl. set_solver.
Qed.

Lemma button_cons (h : FormState -> FormState * list Call) (c caption : string)
    (rest : list Element) :
  button caption (ButtonEl h c :: rest)
  = if String.eqb c caption then Some h else button caption rest.
Proof. reflexivity. Qed.

Lemma click_calls (d : Dialog) (caption : string) (props : DialogProps)
    (form : FormState) :
  (click d caption props form).2 = []
  \/ (click d caption props form).2 = [toggleDialog]
  \/ exists data,
       accepted d data /\ (click d caption props form).2 = onSubmitOf d data.
Proof.
  assert (Hsubmit :
    (handleSubmit (fields d props form) (onSubmitOf d) form).2 = []
    \/ exists data,
         accepted d data
         /\ (handleSubmit (fields d props form) (onSubmitOf d) form).2
            = onSubmitOf d data).
  { rewrite handleSubmit_calls.
    destruct (validateFields (fields d props form) form) eqn:E; [|now left].
    right. exists (getValues (fields d props form) form).
    split; [now apply accepted_record | reflexivity]. }
  unfold click.
  destruct d.
  - change (dlg_actions (element (render ServeDialog props form)))
      with [ ButtonEl KFServingDialogTsx.onCancel "Cancel";
             ButtonEl (handleSubmit (fields ServeDialog props form)
                         (onSubmitOf ServeDialog)) "Run" ].
    rewrite !button_cons.
    destruct (String.eqb "Cancel" caption); [now right; left|].
    destruct (String.eqb "Run" caption); [|now left].
    destruct Hsubmit as [H|H]; auto.
  - change (dlg_actions (element (render PipelineDialog props form)))
      with [ ButtonEl (handleSubmit (fields PipelineDialog props form)
                         (onSubmitOf PipelineDialog)) "Ok" ].
    rewrite !button_cons.
    destruct (String.eqb "Ok" caption); [|now left].
    destruct Hsubmit as [H|H]; auto.
  - change (dlg_actions (element (render DraftDialog props form)))
      with [ ButtonEl FormInputTsx.handleClose "Cancel";
             ButtonEl (handleSubmit (fields DraftDialog props form)
                         (onSubmitOf DraftDialog)) "Run" ].
    rewrite !button_cons.
    destruct (String.eqb "Cancel" caption); [now right; left|].
    destruct (String.eqb "Run" caption); [|now left].
    destruct Hsubmit as [H|H]; auto.
Qed.

Lemma sessionTrace_timers (d : Dialog) (due : list (Z * list Call))
    (tr : list Call) :
  Forall (fun t => t.2 = [triggerValidation]) due ->
  sessionTrace d tr -> sessionTrace d (tr ++ concat (snd <$> due)).
Proof.
  intros Hdue. revert tr.
  induction Hdue as [|t due Ht _ IH]; intros tr Htr; simpl.
  - now rewrite app_nil_r.
  - rewrite Ht, app_assoc. apply IH. now constructor.
Qed.

Lemma step_session (d : Dialog) (ev : Event) (m : Mounted) :
  sessionTrace d (trace m)
  /\ Forall (fun t => t.2 = [triggerValidation]) (timers m) ->
  sessionTrace d (trace (step d ev m))
  /\ Forall (fun t => t.2 = [triggerValidation]) (timers (step d ev m)).
Proof.
  intros [Htr Htm]. destruct ev as [p|n v|c|dt].
  - rewrite step_Render. simpl. split; [exact Htr|].
    apply Forall_app. split; [exact Htm|].
    destruct (_ && _); repeat constructor.
  - simpl. auto.
  - pose proof (click_calls d c (curProps m) (curForm m)) as Hc.
    simpl. destruct (click d c (curProps m) (curForm m)) as [form' calls].
    simpl in *. split; [|exact Htm].
    destruct Hc as [->|[->|(data & Hok & ->)]].
    + now rewrite app_nil_r.
    + now constructor.
    + now constructor.
  - simpl. split.
    + apply sessionTrace_timers; [|exact Htr].
      rewrite Forall_forall in *. intros t Ht.
      apply list_elem_of_filter in Ht as [_ Ht]. auto.
    + rewrite Forall_forall in *. intros t Ht.
      apply list_elem_of_filter in Ht as [_ Ht]. auto.
Qed.

Lemma run_session (d : Dialog) (evs : list Event) (m : Mounted) :
  sessionTrace d (trace m)
  /\ Forall (fun t => t.2 = [triggerValidation]) (timers m) ->
  sessionTrace d (trace (run d evs m)).
Proof.
  revert m. induction evs as [|ev evs IH]; intros m Hm.
  - apply Hm.
  - apply IH, step_session, Hm.
Qed.

Lemma sessionTrace_serve (d : Dialog) (tr : list Call) (data : gmap string string) :
  sessionTrace d tr -> runInferenceService data ∈ tr ->
  d = ServeDialog /\ serveRecord data.
Proof.
  induction 1 as [|tr Htr IH|tr Htr IH|tr data' Htr IH Hok]; intros Hin.
  - inversion Hin.
  - apply elem_of_app in Hin as [Hin|Hin]; [auto|].
    apply list_elem_of_singleton in Hin. discriminate.
  - apply elem_of_app in Hin as [Hin|Hin]; [auto|].
    apply list_elem_of_singleton in Hin. discriminate.
  - apply elem_of_app in Hin as [Hin|Hin]; [auto|].
    destruct d;
      cbv [onSubmitOf KFServingDialogTsx.onSubmit
             KFServingPipelineDialogTsx.onSubmit FormInputTsx.onSubmit] in Hin.
    + rewrite !elem_of_cons in Hin.
      destruct Hin as [[=]|[[= ->]|Hin]]; [auto | inversion Hin].
    + rewrite !elem_of_cons in Hin.
      destruct Hin as [[=]|[[=]|Hin]]; inversion Hin.
    + inversion Hin.
Qed.

Lemma sessionTrace_pipeline (d : Dialog) (tr : list Call)
    (data : gmap string string) :
  sessionTrace d tr -> setKFServingMetadata data ∈ tr ->
  d = PipelineDialog /\ pipelineRecord data.
Proof.
  induction 1 as [|tr Htr IH|tr Htr IH|tr data' Htr IH Hok]; intros Hin.
  - inversion Hin.
  - apply elem_of_app in Hin as [Hin|Hin]; [auto|].
    apply list_elem_of_singleton in Hin. discriminate.
  - apply elem_of_app in Hin as [Hin|Hin]; [auto|].
    apply list_elem_of_singleton in Hin. discriminate.
  - apply elem_of_app in Hin as [Hin|Hin]; [auto|].
    destruct d;
      cbv [onSubmitOf KFServingDialogTsx.onSubmit
             KFServingPipelineDialogTsx.onSubmit FormInputTsx.onSubmit] in Hin.
    + rewrite !elem_of_cons in Hin.
      destruct Hin as [[=]|[[=]|Hin]]; inversion Hin.
    + rewrite !elem_of_cons in Hin.
      destruct Hin as [[=]|[[= ->]|Hin]]; [auto | inversion Hin].
    + inversion Hin.
Qed.

Lemma preceded_app (tr b : list Call) :
  (forall i c, tr !! i = Some c ->
     (exists data, c = runInferenceService data \/ c = setKFServingMetadata data) ->
     exists j, i = S j /\ tr !! j = Some toggleDialog) ->
  (forall i c, b !! i = Some c ->
     (exists data, c = runInferenceService data \/ c = setKFServingMetadata data) ->
     exists j, i = S j /\ b !! j = Some toggleDialog) ->
  forall i c, (tr ++ b) !! i = Some c ->
    (exists data, c = runInferenceService data \/ c = setKFServingMetadata data) ->
    exists j, i = S j /\ (tr ++ b) !! j = Some toggleDialog.
Proof.
  intros Htr Hb i c Hi Hc.
  apply lookup_app_Some in Hi as [Hi|[Hlen Hi]].
  - destruct (Htr i c Hi Hc) as (j & -> & Hj).
    exists j. split; [reflexivity|]. now apply lookup_app_l_Some.
  - destruct (Hb _ c Hi Hc) as (j & Hij & Hj).
    exists (length tr + j). split; [lia|].
    rewrite lookup_app_r by lia.
    now replace (length tr + j - length tr) with j by lia.
Qed.

Lemma sessionTrace_preceded (d : Dialog) (tr : list Call) :
  sessionTrace d tr ->
  forall i c, tr !! i = Some c ->
    (exists data, c = runInferenceService data \/ c = setKFServingMetadata data) ->
    exists j, i = S j /\ tr !! j = Some toggleDialog.
Proof.
  induction 1 as [|tr Htr IH|tr Htr IH|tr data' Htr IH Hok].
  - intros i c Hi. inversion Hi.
  - apply preceded_app; [exact IH|].
    intros [|[|i]] c [=] (data & [->| ->]); discriminate.
  - apply preceded_app; [exact IH|].
    intros [|[|i]] c [=] (data & [->| ->]); discriminate.
  - apply preceded_app; [exact IH|].
    destruct d;
      cbv [onSubmitOf KFServingDialogTsx.onSubmit
             KFServingPipelineDialogTsx.onSubmit FormInputTsx.onSubmit].
    + intros [|[|[|i]]] c [=] (data & [->| ->]); try discriminate.
      now exists 0.
    + intros [|[|[|i]]] c [=] (data & [->| ->]); try discriminate.
      now exists 0.
    + intros i c [=].
Qed.

(** X5: whatever the host and the user do to a dialog (renders, edits,
    clicks on any button, time passing), [runInferenceService] is only ever
    called by KFServingDialog and only with a record whose name matches the
    name pattern, whose model path and predictor are not empty, and which
    holds a non-empty image and endpoint and a port of digits exactly when
    the predictor is 'custom'; [setKFServingMetadata] is only ever called by
    KFServingPipelineDialog and only with a record of a non-empty model and
    predictor; and each of these calls comes right after a call to
    [toggleDialog]. The draft dialog of FormInput.tsx calls neither. *)
Theorem session_calls (d : Dialog) (evs : list Event) :
  let tr := trace (run d evs mount) in
  (forall data,
     runInferenceService data ∈ tr -> d = ServeDialog /\ serveRecord data)
  /\ (forall data,
        setKFServingMetadata data ∈ tr ->
        d = PipelineDialog /\ pipelineRecord data)
  /\ (forall i c,
        tr !! i = Some c ->
        (exists data,
           c = runInferenceService data \/ c = setKFServingMetadata data) ->
        exists j, i = S j /\ tr !! j = Some toggleDialog).
Proof.
  intros tr.
  assert (Htr : sessionTrace d tr).
  { apply run_session. split; [constructor | constructor]. }
  split; [|split].
  - intros data. now apply sessionTrace_serve.
  - intros data. now apply sessionTrace_pipeline.
  - exact (sessionTrace_preceded d tr Htr).
Qed.

(** X5, on KFServingDialog opened, filled in for an sklearn model and
    submitted. *)
Lemma session_calls_witness :
  let evs :=
    [ Render {| open := true |}; Edit "name" "my-model";
      Edit "modelPath" "gs://bucket/model"; Edit "predictor" "sklearn";
      Click "Run" ] in
  let record : gmap string string :=
    {[ "name" := "my-model"; "modelPath" := "gs://bucket/model";
       "predictor" := "sklearn" ]} in
  trace (run ServeDialog evs mount) = [toggleDialog; runInferenceService record]
  /\ serveRecord record.
Proof.
  intros evs record.
  assert (Htr : trace (run ServeDialog evs mount)
                = [toggleDialog; runInferenceService record]) by reflexivity.
  split; [exact Htr|].
  apply (proj1 (session_calls ServeDialog evs) record).
  rewrite Htr. apply list_elem_of_further, list_elem_of_here.
Defined.

(** ** Timers are neither lost nor cancelled *)

Lemma validations_app (tr1 tr2 : list Call) :
  validations (tr1 ++ tr2) = validations tr1 + validations tr2.
Proof.
  induction tr1 as [|c tr1 IH]; [reflexivity|].
  destruct c; simpl; rewrite IH; reflexivity.
Qed.

Lemma validations_click (d : Dialog) (caption : string) (props : DialogProps)
    (form : FormState) :
  validations (click d caption props form).2 = 0.
Proof.
  destruct (click_calls d caption props form) as [->|[->|(data & _ & ->)]];
    [reflexivity..|].
  destruct d; reflexivity.
Qed.

Lemma validations_due (P : Z * list Call -> Prop) `{!forall t, Decision (P t)}
    (l : list (Z * list Call)) :
  Forall (fun t => t.2 = [triggerValidation]) l ->
  validations (concat (snd <$> filter P l)) + length (filter (fun t => ~ P t) l)
  = length l.
Proof.
  induction 1 as [|t l Ht _ IH]; [reflexivity|].
  destruct (decide (P t)) as [Hp|Hp].
  - rewrite (filter_cons_True P) by exact Hp.
    rewrite (filter_cons_False (fun t => ~ P t)) by tauto.
    rewrite fmap_cons, length_cons. simpl concat. rewrite Ht.
    change (S (validations (concat (snd <$> filter P l))
               + length (filter (fun t => ~ P t) l)) = S (length l)).
    now rewrite IH.
  - rewrite (filter_cons_False P) by exact Hp.
    rewrite (filter_cons_True (fun t => ~ P t)) by exact Hp.
    rewrite !length_cons, <- IH. lia.
Qed.

Lemma step_timers (d : Dialog) (ev : Event) (m : Mounted) :
  Forall (fun t => t.2 = [triggerValidation] /\ (clock m < t.1)%Z) (timers m) ->
  let m' := step d ev m in
  Forall (fun t => t.2 = [triggerValidation] /\ (clock m' < t.1)%Z) (timers m')
  /\ validations (trace m') + length (timers m')
     = validations (trace m) + length (timers m) + openings (lastDeps m) [ev]
  /\ lastDeps m'
     = match ev with Render p => Some [open p] | _ => lastDeps m end.
Proof.
  intros Hm m'. unfold m'. destruct ev as [p|n v|c|dt].
  - rewrite step_Render. simpl. split; [|split; [|reflexivity]].
    + apply Forall_app. split; [exact Hm|].
      destruct (_ && _); repeat constructor. simpl. lia.
    + rewrite length_app. destruct (_ && _); simpl; lia.
  - simpl. split; [exact Hm|]. split; [lia | reflexivity].
  - pose proof (validations_click d c (curProps m) (curForm m)) as Hc.
    simpl. destruct (click d c (curProps m) (curForm m)) as [form' calls].
    simpl in *. split; [exact Hm|]. split; [|reflexivity].
    rewrite validations_app. lia.
  - simpl. split; [|split; [|reflexivity]].
    + rewrite Forall_forall in *. intros t Ht.
      apply list_elem_of_filter in Ht as [Hlate Ht].
      split; [apply Hm, Ht | lia].
    + rewrite validations_app.
      assert (Htv : Forall (fun t => t.2 = [triggerValidation]) (timers m))
        by (eapply Forall_impl; [exact Hm | now intros t [H _]]).
      pose proof (validations_due (fun t => (t.1 <= clock m + dt)%Z) _ Htv).
      lia.
Qed.

Lemma run_timers (d : Dialog) (evs : list Event) (m : Mounted) :
  Forall (fun t => t.2 = [triggerValidation] /\ (clock m < t.1)%Z) (timers m) ->
  let m' := run d evs m in
  Forall (fun t => t.2 = [triggerValidation] /\ (clock m' < t.1)%Z) (timers m')
  /\ validations (trace m') + length (timers m')
     = validations (trace m) + length (timers m) + openings (lastDeps m) evs.
Proof.
  revert m. induction evs as [|ev evs IH]; intros m Hm.
  - simpl. split; [exact Hm | lia].
  - destruct (step_timers d ev m Hm) as (Hm' & Hcount & Hdeps).
    destruct (IH _ Hm') as (Hfinal & Hcount').
    change (run d (ev :: evs) m) with (run d evs (step d ev m)).
    split; [exact Hfinal|].
    rewrite Hcount', Hcount, Hdeps.
    destruct ev; simpl; lia.
Qed.

(** X6: no timer is ever lost or cancelled. After any sequence of renders,
    edits, clicks and time steps on a freshly mounted dialog, the number of
    [triggerValidation] calls made so far plus the number of timers still
    waiting equals the number of renders that found [open] turned true; in
    particular the timer of a dialog that is closed again before 500 ms
    have passed still fires. Every waiting timer is one of those timers and
    is due later than the current time. *)
Theorem validation_timers_conserved (d : Dialog) (evs : list Event) :
  let m := run d evs mount in
  validations (trace m) + length (timers m) = openings None evs
  /\ Forall (fun t => t.2 = [triggerValidation] /\ (clock m < t.1)%Z) (timers m).
Proof.
  intros m.
  destruct (run_timers d evs mount) as [Hm Hcount]; [constructor|].
  split; [exact Hcount | exact Hm].
Qed.

(** X6, on a dialog that is opened, closed at once and then left alone for
    500 ms: the one validation still takes place. *)
Lemma validation_timers_conserved_witness :
  let evs :=
    [Render {| open := true |}; Render {| open := false |}; Advance 500] in
  trace (run DraftDialog evs mount) = [triggerValidation]
  /\ validations (trace (run DraftDialog evs mount))
     + length (timers (run DraftDialog evs mount)) = 1.
Proof.
  intros evs. split; [reflexivity|].
  exact (proj1 (validation_timers_conserved DraftDialog evs)).
Defined.

(** ** What the inputs show after a validation *)

Lemma fields_values (d : Dialog) (props : DialogProps) (form1 form2 : FormState) :
  values form1 = values form2 -> fields d props form1 = fields d props form2.
Proof.
  intros Hv. destruct d; [|reflexivity..].
  rewrite !fields_Serve. unfold watch. now rewrite Hv.
Qed.

Lemma outlinedInput_shows (form : FormState) (n l : string) (dv : JsVal)
    (rules p : gmap string JsVal) :
  FormInputEl p = outlinedInput form n l dv rules ->
  registration (FormInputEl p)
  = Some {| reg_name := n; reg_default := toDomString dv; reg_rules := rules |}
  /\ p !! "error" = Some (VBool (bool_decide (is_Some (errors form !! n))))
  /\ p !! "helperText"
     = Some match errors form !! n with
            | Some e => VStr (message e)
            | None => VUndefined
            end.
Proof. intros [= ->]. repeat split; reflexivity. Qed.

Lemma content_inputs (d : Dialog) (props : DialogProps) (form : FormState)
    (p : gmap string JsVal) :
  FormInputEl p ∈ dlg_content (element (render d props form)) ->
  exists n l dv rules,
    FormInputEl p = outlinedInput form n l dv rules
    /\ {| reg_name := n; reg_default := toDomString dv; reg_rules := rules |}
       ∈ fields d props form.
Proof.
  intros Hin. destruct d.
  - change (render ServeDialog props form)
      with (KFServingDialogTsx.KFServingDialog props form) in Hin.
    rewrite serve_content in Hin. rewrite fields_Serve.
    apply elem_of_app in Hin as [Hin|Hin].
    + rewrite !elem_of_cons in Hin.
      destruct Hin as [->|[->|[Hin|Hin]]];
        [| |discriminate|inversion Hin];
        do 4 eexists; (split; [reflexivity|]);
        apply elem_of_app; left; pick_field.
    + destruct (bool_decide _); [|inversion Hin].
      rewrite !elem_of_cons in Hin.
      destruct Hin as [->|[->|[->|Hin]]]; [| | |inversion Hin];
        do 4 eexists; (split; [reflexivity|]);
        apply elem_of_app; right; pick_field.
  - change (dlg_content (element (render PipelineDialog props form)))
      with [ outlinedInput form "model" "Model Variable Name" (VStr "") requiredOnly;
             ControllerEl "predictor" "" requiredOnly
               {| select_label := "Predictor";
                  select_values := KFServingDialogTsx.PREDICTOR_VALUES |} ] in Hin.
    rewrite !elem_of_cons in Hin.
    destruct Hin as [->|[Hin|Hin]]; [|discriminate|inversion Hin].
    do 4 eexists. split; [reflexivity|]. rewrite fields_Pipeline. pick_field.
  - change (dlg_content (element (render DraftDialog props form)))
      with [ outlinedInput form "name" "InferenceService Name" (VStr "") nameRules;
             outlinedInput form "image" "Docker Image" (VStr "") requiredOnly;
             outlinedInput form "port" "Endpoint Port" (VNum 5000) portRules;
             outlinedInput form "endpoint" "Service Endpoint" (VStr "") requiredOnly;
             outlinedInput form "path" "Model Path" (VStr "") requiredOnly ] in Hin.
    rewrite !elem_of_cons in Hin.
    destruct Hin as [->|[->|[->|[->|[->|Hin]]]]]; [| | | | |inversion Hin];
      do 4 eexists; (split; [reflexivity|]); rewrite fields_Draft; pick_field.
Qed.

(** X7: once the form of a dialog has been validated ([triggerValidation],
    or a click on the submit button), every text input the dialog renders
    is marked with [error] exactly when its own value breaks one of its
    rules, and shows as [helperText] the message of that rule, or nothing
    when the value passes. *)
Theorem inputs_show_their_errors (d : Dialog) (props : DialogProps)
    (form : FormState) (p : gmap string JsVal) :
  let validated := runValidation (fields d props form) form in
  FormInputEl p ∈ dlg_content (element (render d props validated)) ->
  exists f,
    f ∈ fields d props form
    /\ registration (FormInputEl p) = Some f
    /\ p !! "error"
       = Some (VBool (bool_decide
                        (is_Some (validateField (reg_rules f) (fieldValue form f)))))
    /\ p !! "helperText"
       = Some match validateField (reg_rules f) (fieldValue form f) with
              | Some e => VStr (message e)
              | None => VUndefined
              end.
Proof.
  intros validated Hin.
  apply content_inputs in Hin as (n & l & dv & rules & Hp & Hf).
  rewrite (fields_values d props validated form eq_refl) in Hf.
  apply outlinedInput_shows in Hp as (Hreg & Herr & Hhelp).
  eexists. split; [exact Hf|]. split; [exact Hreg|].
  pose proof (errors_runValidation _ form _ (fields_NoDup d props form) Hf) as He.
  simpl reg_name in He. fold validated in He.
  rewrite Herr, Hhelp, He. split; reflexivity.
Qed.

(** X7, on the name input of KFServingDialog holding 'My_Model'. *)
Lemma inputs_show_their_errors_witness :
  let form := {| values := {[ "name" := "My_Model" ]}; errors := ∅ |} in
  let validated :=
    runValidation (fields ServeDialog {| open := true |} form) form in
  exists p,
    outlinedInput validated "name" "InferenceService Name" (VStr "") nameRules
    = FormInputEl p
    /\ p !! "error" = Some (VBool true)
    /\ p !! "helperText" = Some (VStr "Must be a valid K8s resource name").
Proof.
  intros form validated. eexists. split; [reflexivity|].
  match goal with
  | |- ?p !! _ = _ /\ _ =>
      destruct (inputs_show_their_errors ServeDialog {| open := true |} form p)
        as (f & _ & Hreg & Herr & Hhelp)
  end.
  - apply elem_of_app. left. pick_field.
  - injection Hreg as <-. split; [exact Herr | exact Hhelp].
Defined.

(** ** A submit attempt *)

Lemma list_to_map_empty_iff (l : list (string * FieldError)) :
  (list_to_map l : gmap string FieldError) = ∅ <-> l = [].
Proof.
  split; [|now intros ->].
  destruct l as [|[k e] l]; [reflexivity|].
  simpl. intros H. now apply insert_non_empty in H.
Qed.

(** X8: a click on the submit button never changes a value of the form.
    It leaves [errors] empty exactly when every registered field passes its
    rules, and, in KFServingDialog and KFServingPipelineDialog, it calls
    the callbacks exactly in that case: the record is delivered if and only
    if no field is left with an error. *)
Theorem submit_delivers_iff_no_error (d : Dialog) (props : DialogProps)
    (form : FormState) :
  let after := (click d (submitCaption d) props form).1 in
  let calls := (click d (submitCaption d) props form).2 in
  values after = values form
  /\ (errors after = ∅ <-> validateFields (fields d props form) form = [])
  /\ (d <> DraftDialog -> (calls <> [] <-> errors after = ∅)).
Proof.
  intros after calls. unfold after, calls.
  rewrite click_submit, handleSubmit_form, handleSubmit_calls.
  split; [reflexivity|].
  split; [apply list_to_map_empty_iff|].
  intros Hd. simpl errors. rewrite list_to_map_empty_iff.
  destruct (validateFields (fields d props form) form) as [|e l].
  - split; [reflexivity|]. intros _. destruct d; [discriminate..|contradiction].
  - split; [intros H; now destruct H | discriminate].
Qed.

(** X8, on an untouched KFServingPipelineDialog: nothing is delivered and
    errors are left. *)
Lemma submit_delivers_iff_no_error_witness :
  (click PipelineDialog "Ok" {| open := true |} emptyForm).2 = []
  /\ errors (click PipelineDialog "Ok" {| open := true |} emptyForm).1 <> ∅.
Proof.
  split; [reflexivity|].
  pose proof (submit_delivers_iff_no_error PipelineDialog {| open := true |}
                emptyForm) as (_ & _ & H).
  intros He. apply (proj2 (H ltac:(discriminate))) in He. now apply He.
Defined.

(** ** FormInput as the dialogs use it *)

(** X9: whatever props it is given, [FormInput] hands [name],
    [defaultValue] and [inputRef] on to the [TextField] untouched, so the
    field that the [TextField] registers with the form is the one its
    caller asked for; [label], [variant], [error] and [helperText] are
    handed on untouched as well. *)
Theorem FormInput_keeps_registration (classes : FormInputTsx.Classes)
    (props : gmap string JsVal) :
  match FormInputTsx.FormInput classes props with
  | FormInputTsx.TextField out =>
      registration (FormInputEl out) = registration (FormInputEl props)
      /\ out !! "label" = props !! "label"
      /\ out !! "variant" = props !! "variant"
      /\ out !! "error" = props !! "error"
      /\ out !! "helperText" = props !! "helperText"
  end.
Proof.
  unfold FormInputTsx.FormInput.
  assert (Hfw : forall k,
    k ∉ ["className"; "margin"; "spellCheck"; "inputIndex"; "readOnly";
         "InputProps"; "InputLabelProps"; "FormHelperTextProps"] ->
    forall a b c d e f : JsVal,
    <["FormHelperTextProps" := a]> (<["InputLabelProps" := b]>
      (<["InputProps" := c]> (<["spellCheck" := d]> (<["margin" := e]>
        (<["className" := f]>
          (delete "InputProps" (delete "readOnly" (delete "inputIndex"
            (delete "className" props))))))))) !! k = props !! k).
  { intros k Hk a b c d e f. rewrite !not_elem_of_cons in Hk.
    destruct Hk as (? & ? & ? & ? & ? & ? & ? & ? & _).
    rewrite !lookup_insert_ne, !lookup_delete_ne by congruence. reflexivity. }
  unfold registration.
  rewrite !Hfw by (apply (bool_decide_unpack _); vm_compute; exact I).
  repeat split; reflexivity.
Qed.

(** X10: a caller cannot restyle or index the field: [FormInput] renders the
    same [TextField] whatever [className] and [inputIndex] it is given, or
    whether it is given them at all. *)
Theorem FormInput_ignores_className (classes : FormInputTsx.Classes)
    (props : gmap string JsVal) (cls idx : JsVal) :
  FormInputTsx.FormInput classes (<["className" := cls]> props)
  = FormInputTsx.FormInput classes props
  /\ FormInputTsx.FormInput classes (delete "className" props)
     = FormInputTsx.FormInput classes props
  /\ FormInputTsx.FormInput classes (<["inputIndex" := idx]> props)
     = FormInputTsx.FormInput classes props
  /\ FormInputTsx.FormInput classes (delete "inputIndex" props)
     = FormInputTsx.FormInput classes props.
Proof.
  unfold FormInputTsx.FormInput.
  rewrite !lookup_insert_ne, !lookup_delete_ne by discriminate.
  rewrite delete_insert_eq, delete_delete_eq.
  rewrite (delete_insert_ne props "className" "inputIndex") by discriminate.
  rewrite delete_insert_eq.
  rewrite (delete_delete props "className" "inputIndex"), delete_delete_eq.
  repeat split; reflexivity.
Qed.

(** X11: every text input of every dialog reaches its [TextField] editable:
    the dialogs pass neither [readOnly] nor [InputProps], so [InputProps] is
    exactly the input class and [readOnly: false]; and it is laid out with
    the full-width class and the dense margin. *)
Theorem dialog_inputs_editable (classes : FormInputTsx.Classes) (d : Dialog)
    (props : DialogProps) (form : FormState) (p : gmap string JsVal) :
  FormInputEl p ∈ dlg_content (element (render d props form)) ->
  match FormInputTsx.FormInput classes p with
  | FormInputTsx.TextField out =>
      out !! "InputProps"
      = Some (VObj {[ "classes" :=
                        VObj {[ "root" := VStr (FormInputTsx.input classes) ]};
                      "readOnly" := VBool false ]})
      /\ out !! "className" = Some (VStr (FormInputTsx.textField classes))
      /\ out !! "margin" = Some (VStr "dense")
      /\ out !! "variant" = Some (VStr "outlined")
  end.
Proof.
  intros Hin.
  apply content_inputs in Hin as (n & l & dv & rules & [= ->] & _).
  repeat split; reflexivity.
Qed.

(** X11, on the port input of the draft dialog. *)
Lemma dialog_inputs_editable_witness :
  let classes :=
    {| FormInputTsx.label := "label-1"; FormInputTsx.input := "input-2";
       FormInputTsx.textField := "textField-3";
       FormInputTsx.helperLabel := "helperLabel-4" |} in
  exists p out,
    FormInputEl p
    = outlinedInput emptyForm "port" "Endpoint Port" (VNum 5000) portRules
    /\ FormInputTsx.FormInput classes p = FormInputTsx.TextField out
    /\ out !! "InputProps"
       = Some (VObj {[ "classes" := VObj {[ "root" := VStr "input-2" ]};
                       "readOnly" := VBool false ]}).
Proof.
  intros classes. eexists _, _. split; [reflexivity|]. split; [reflexivity|].
  refine (proj1 (dialog_inputs_editable classes DraftDialog {| open := true |}
                   emptyForm _ _)).
  pick_field.
Defined.

(** ** Editing a field *)




(** ** Submitting again *)

(** X13: nothing guards against a second submission. A click on the submit
    button leaves the form in a state where the same click makes the same
    calls again and changes nothing further: a valid form is delivered
    once per click. *)
Theorem submit_again (d : Dialog) (props : DialogProps) (form : FormState) :
  let first := click d (submitCaption d) props form in
  click d (submitCaption d) props first.1 = first.
Proof.
  intros first. unfold first.
  rewrite !click_submit.
  assert (Hform :
    (handleSubmit (fields d props form)
       match d with
       | ServeDialog => KFServingDialogTsx.onSubmit
       | PipelineDialog => KFServingPipelineDialogTsx.onSubmit
       | DraftDialog => FormInputTsx.onSubmit
       end form).1 = runValidation (fields d props form) form)
    by apply handleSubmit_form.
  rewrite Hform.
  rewrite (fields_values d props (runValidation (fields d props form) form) form
             eq_refl).
  reflexivity.
Qed.

(** A valid KFServingPipelineDialog clicked twice delivers twice. *)
Example submit_twice_delivers_twice :
  let record : gmap string string :=
    {[ "model" := "clf"; "predictor" := "sklearn" ]} in
  trace (run PipelineDialog
           [ Render {| open := true |}; Edit "model" "clf";
             Edit "predictor" "sklearn"; Click "Ok"; Click "Ok" ] mount)
  = [ toggleDialog; setKFServingMetadata record;
      toggleDialog; setKFServingMetadata record ].
Proof. reflexivity. Qed.
